(** * The train/validation loop of [overfit_small_dataset]

    A shallow embedding of [train_model] (the epoch loop, the per-phase batch
    loop, the best-model promotion, the checkpoint and history calls) and the
    properties its specification states about it.

    Conventions of the model.
    - Python [float] and 0-d float tensors are idealised as exact rationals
      ([Q]); the only comparison the loop makes, [epoch_acc > best_acc], is
      between quotients of small counts by the same dataset length, where the
      rounded and the exact comparison agree.  The best-loss summary lines of
      the notebook compare arbitrary losses; they are followed on exact values
      and on floats with the infinities and NaN ([pyfloat]).
    - The tensor runtime, the network, the criterion, the optimizer and the
      helper modules [utils.checkpoints] and [utils.metrics] are collaborators
      of the loop: they are the fields of the class [Collaborators], and every
      call may raise.
    - The live model, the optimizer and the output the run leaves behind form
      the state [World]; local variables of [train_model] are passed
      explicitly and are lost when an exception unwinds the call. *)

From Stdlib Require Import String.
From Stdlib Require Import List ZArith QArith Lia Bool PeanoNat.
From Stdlib Require Import Ascii Permutation.
Import ListNotations.
Local Open Scope nat_scope.

(** ** Exceptions and fallible calls *)

Inductive exn : Type :=
| ZeroDivisionError            (* float division by [len(dataset) = 0] *)
| AttributeError               (* [.double()] on the Python int [0] *)
| RuntimeError                 (* tensor shape errors of the runtime *)
| InvalidInputError            (* the metrics calculator refusing its input *)
| Failure (who : string).      (* a collaborator call that raised *)

Inductive Phase : Type := train | val.

Definition Phase_eqb (p q : Phase) : bool :=
  match p, q with
  | train, train | val, val => true
  | _, _ => false
  end.

(** [a > b] on floats, as a boolean. *)
Definition Qgtb (a b : Q) : bool := negb (Qle_bool a b).

(** ** Tensor operations the loop performs itself *)

(** Index of the first maximal entry of a row, scanning left to right. *)
Fixpoint argmax_from (best_i : nat) (best : Q) (j : nat) (row : list Q) : nat :=
  match row with
  | [] => best_i
  | x :: rest =>
      if Qgtb x best then argmax_from j x (S j) rest
      else argmax_from best_i best (S j) rest
  end.

Definition row_argmax (row : list Q) : exn + nat :=
  match row with
  | [] => inl RuntimeError
  | x :: rest => inr (argmax_from 0 x 1 rest)
  end.

(** [torch.max(t, 1)[1]]: the arg-max of every row of a 2-d tensor. *)
Fixpoint torch_max_1 (t : list (list Q)) : exn + list nat :=
  match t with
  | [] => inr []
  | row :: rows =>
      match row_argmax row with
      | inl e => inl e
      | inr k =>
          match torch_max_1 rows with
          | inl e => inl e
          | inr ks => inr (k :: ks)
          end
      end
  end.

(** [t] is the index of the first maximal entry of [row]. *)
Definition first_argmax (row : list Q) (t : nat) : Prop :=
  exists m, nth_error row t = Some m /\
            forall j x, nth_error row j = Some x ->
                        (x <= m)%Q /\ (j < t -> (x < m)%Q).

(** Number of positions at which two index lists agree. *)
Fixpoint count_eq (a b : list nat) : nat :=
  match a, b with
  | x :: a', y :: b' => (if x =? y then 1 else 0) + count_eq a' b'
  | _, _ => 0
  end.

(** [torch.sum(preds == targets)] on 1-d tensors: element-wise on equal
    lengths, broadcasting a length-one operand, an error otherwise. *)
Definition tensor_eq_sum (preds targets : list nat) : exn + nat :=
  if length preds =? length targets then inr (count_eq preds targets)
  else
    match preds, targets with
    | [x], _ => inr (count_eq (repeat x (length targets)) targets)
    | _, [y] => inr (count_eq preds (repeat y (length preds)))
    | _, _ => inl RuntimeError
    end.

(** [running_corrects] starts as the Python int [0] and becomes a 0-d tensor
    once a batch has been added to it. *)
Inductive counter : Type :=
| PyInt (n : nat)
| Tensor0 (n : nat).

Definition counter_value (c : counter) : nat :=
  match c with PyInt n | Tensor0 n => n end.

Definition counter_add (c : counter) (k : nat) : counter :=
  Tensor0 (counter_value c + k).

Definition Q_of_nat (n : nat) : Q := inject_Z (Z.of_nat n).

(** [running_loss / len(...)]: Python float division. *)
Definition py_div (x : Q) (n : nat) : exn + Q :=
  match n with
  | O => inl ZeroDivisionError
  | S _ => inr (x / Q_of_nat n)%Q
  end.

(** [running_corrects.double() / len(...)]; it is reached only after
    [py_div] has passed, so with a length that is not zero. *)
Definition double_div (c : counter) (n : nat) : exn + Q :=
  match c with
  | PyInt _ => inl AttributeError
  | Tensor0 k => inr (Q_of_nat k / Q_of_nat n)%Q
  end.

(** [range(a, b)] on Python ints. *)
Definition py_range (a b : Z) : list Z :=
  map (fun k => (a + Z.of_nat k)%Z) (seq 0 (Z.to_nat (b - a))).

(** The fixed label set passed to [confusion_matrix]. *)
Definition labels10 : list nat := [0; 1; 2; 3; 4; 5; 6; 7; 8; 9].

(** ** The confusion matrix *)

Definition count_pair (y_true y_pred : list nat) (r c : nat) : nat :=
  List.length
    (filter (fun tp => (fst tp =? r) && (snd tp =? c)) (combine y_true y_pred)).

Definition in_labels (labels : list nat) (x : nat) : bool :=
  existsb (Nat.eqb x) labels.

(** Modelled from the spec: [sklearn.metrics.confusion_matrix] is imported and
    its code is not part of the repository.  Section 4.1 describes the result
    as a count matrix over the full fixed label set with rows = ground truth
    and columns = predicted, failing when the lengths differ or a value is
    outside the label set. *)
Definition confusion_matrix (y_true y_pred labels : list nat)
  : exn + list (list nat) :=
  if negb (length y_true =? length y_pred) then inl InvalidInputError
  else if negb (forallb (in_labels labels) y_true
                && forallb (in_labels labels) y_pred)
       then inl InvalidInputError
  else inr (map (fun r => map (fun c => count_pair y_true y_pred r c) labels)
                labels).

Definition list_sum_nat (l : list nat) : nat := fold_right Nat.add 0 l.

(** Modelled from the spec: [utils.metrics] is not among the sources.
    Section 4.1 defines the accuracy of the metrics calculator as the fraction
    of equal elements of the two sequences. *)
Definition metrics_accuracy (predicted ground_truth : list nat) : Q :=
  (Q_of_nat (count_eq predicted ground_truth) / Q_of_nat (length predicted))%Q.

(** ** Collaborators *)

Record HistoryRecord : Type := {
  model_name : string;
  train_loss : Q;
  val_loss : Q;
  train_accuracy : Q;
  val_accuracy : Q;
  train_f1 : Q;
  val_f1 : Q;
  train_precision : Q;
  val_precision : Q;
  train_recall : Q;
  val_recall : Q;
  train_confusion_matrix : list (list nat);
  val_confusion_matrix : list (list nat)
}.

Class Collaborators : Type := {
  StateDict : Type;          (* [model.state_dict()] *)
  OptimState : Type;         (* the optimizer's own state *)
  Grads : Type;              (* what [loss.backward()] leaves on the parameters *)
  Video : Type;              (* the input tensor of a batch *)
  size0 : Video -> nat;      (* [inputs.size(0)] *)
  (* [inputs.to(device)] and [labels.to(device)]: the tensors keep their
     values; the calls may raise *)
  inputs_to_device : Video -> exn + unit;
  labels_to_device : list (list Q) -> exn + unit;
  (* [model(inputs)] in training or evaluation mode, from the state dict the
     batch starts with.  In training mode the real pass also rewrites buffers
     of the state dict (running statistics); that rewrite is part of the
     state dict [optimizer_step] returns, and the state dict between the two
     calls is not described *)
  model_forward : bool -> StateDict -> Video -> exn + list (list Q);
  (* [criterion(outputs, target_indices)], read through [loss.item()] *)
  criterion : list (list Q) -> list nat -> exn + Q;
  (* [loss.backward()] after the forward pass of this batch from this state
     dict *)
  backward : StateDict -> Video -> list nat -> exn + Grads;
  (* [optimizer.step()] of a batch that started from this state dict: the
     state dict and the optimizer state the batch ends with *)
  optimizer_step : OptimState -> StateDict -> Grads -> exn + (StateDict * OptimState);
  (* [get_acc_f1_precision_recall(pred, truth)] *)
  get_acc_f1_precision_recall : list nat -> list nat -> exn + (Q * Q * Q * Q);
  (* [save_weights(model, args, epoch, optimizer)], returning the file name *)
  save_weights : StateDict -> Z -> OptimState -> exn + string;
  (* [write_history(args.history_path, model_name, ...)] *)
  write_history : HistoryRecord -> exn + unit;
  (* [init_session_history(args)] *)
  init_session_history : exn + unit
}.

Section TrainModel.

Context {T : Collaborators}.

(** ** State *)

(** What a run leaves behind, in order. *)
Inductive event : Type :=
| SessionStarted
| PhaseComplete (phase : Phase) (epoch_loss epoch_acc : Q)
| Checkpoint (epoch : Z) (name : string) (w : StateDict) (o : OptimState)
| HistoryWritten (r : HistoryRecord).

Record World : Type := {
  weights : StateDict;       (* the live model's state dict *)
  training : bool;           (* [model.training] *)
  optim : OptimState;
  io : list event
}.

Inductive outcome (A : Type) : Type :=
| Returned (a : A) (w : World)
| Raised (e : exn) (w : World).
Arguments Returned {A} a w.
Arguments Raised {A} e w.

Definition final_world {A} (o : outcome A) : World :=
  match o with Returned _ w | Raised _ w => w end.

Definition M (A : Type) : Type := World -> outcome A.

Definition ret {A} (a : A) : M A := fun w => Returned a w.

Definition bind {A B} (m : M A) (f : A -> M B) : M B :=
  fun w =>
    match m w with
    | Returned a w' => f a w'
    | Raised e w' => Raised e w'
    end.

Definition get : M World := fun w => Returned w w.

Definition call {A} (r : exn + A) : M A :=
  fun w => match r with inl e => Raised e w | inr a => Returned a w end.

(** Field updates of the state. *)
Definition with_io (evs : list event) (w : World) : World :=
  {| weights := weights w; training := training w; optim := optim w;
     io := evs |}.

Definition with_training (b : bool) (w : World) : World :=
  {| weights := weights w; training := b; optim := optim w; io := io w |}.

Definition with_model (s : StateDict) (o : OptimState) (w : World) : World :=
  {| weights := s; training := training w; optim := o; io := io w |}.

Definition emit (ev : event) : M unit :=
  fun w => Returned tt (with_io (io w ++ [ev]) w).

(** [model.train()] and [model.eval()] *)
Definition set_training (b : bool) : M unit :=
  fun w => Returned tt (with_training b w).

(** The effect of [optimizer.step()] on the parameters and the optimizer. *)
Definition set_model (s : StateDict) (o : OptimState) : M unit :=
  fun w => Returned tt (with_model s o w).

(** [model.load_state_dict(s)] *)
Definition load_state_dict (s : StateDict) : M unit :=
  fun w => Returned tt (with_model s (optim w) w).

End TrainModel.

Arguments Returned {T A} a w.
Arguments Raised {T A} e w.

Declare Scope train_scope.
Delimit Scope train_scope with train.
Notation "x <- m ;; k" := (bind m (fun x => k))
  (at level 61, m at next level, right associativity) : train_scope.
Notation "' p <- m ;; k" := (bind m (fun x => match x with p => k end))
  (at level 61, p pattern, m at next level, right associativity) : train_scope.
Notation "m ;;; k" := (bind m (fun _ => k))
  (at level 61, right associativity) : train_scope.

Section TrainLoop.

Context {T : Collaborators}.
Local Open Scope train_scope.

(** ** Data the loop iterates over *)

(** What the loader does when asked for its next sample.  [fetched] is the
    outcome of producing the sample and reading its two entries (lines
    95-97): an exception, or the tensors [sample["video"]] and the one-hot
    rows [sample["action"]] below. *)
Record Batch : Type := {
  fetched : exn + unit;
  video : Video;
  action : list (list Q)
}.

(** [dataloaders[phase]]: the batches one iteration yields, and
    [len(dataloaders[phase].dataset)]. *)
Record DataLoader : Type := {
  batches : list Batch;
  dataset_len : nat
}.

(** ** The batch loop (lines 88-135) *)

(** Variables of one phase: the running statistics, the phase's prediction and
    ground-truth lists and the iteration counter [i]. *)
Record Running : Type := {
  running_loss : Q;
  running_corrects : counter;
  pred_classes : list nat;
  ground_truths : list nat;
  i : nat
}.

Definition init_running : Running :=
  {| running_loss := 0; running_corrects := PyInt 0;
     pred_classes := []; ground_truths := []; i := 0 |}.

(** [loss.backward(); optimizer.step()], only in the train phase. *)
Definition backward_and_step (phase : Phase) (b : Batch) (targets : list nat)
  : M unit :=
  match phase with
  | train =>
      w <- get ;;
      g <- call (backward (weights w) (video b) targets) ;;
      ' (s, o) <- call (optimizer_step (optim w) (weights w) g) ;;
      set_model s o
  | val => ret tt
  end.

(** One turn of [for sample in pbar], from fetching the sample up to the
    [break] test.  [optimizer.zero_grad()] clears gradient buffers, which are
    not part of the state. *)
Definition batch_step (phase : Phase) (b : Batch) (r : Running) : M Running :=
  call (fetched b) ;;;
  call (inputs_to_device (video b)) ;;;
  call (labels_to_device (action b)) ;;;
  w <- get ;;
  outputs <- call (model_forward (training w) (weights w) (video b)) ;;
  targets <- call (torch_max_1 (action b)) ;;
  loss <- call (criterion outputs targets) ;;
  preds <- call (torch_max_1 outputs) ;;
  backward_and_step phase b targets ;;;
  c <- call (tensor_eq_sum preds targets) ;;
  ret {| running_loss := (running_loss r + loss * Q_of_nat (size0 (video b)))%Q;
         running_corrects := counter_add (running_corrects r) c;
         pred_classes := pred_classes r ++ preds;
         ground_truths := ground_truths r ++ targets;
         i := S (i r) |}.

(** [for sample in pbar: ...; i += 1; if i == 10: break] *)
Fixpoint batch_loop (phase : Phase) (bs : list Batch) (r : Running) : M Running :=
  match bs with
  | [] => ret r
  | b :: rest =>
      r' <- batch_step phase b r ;;
      if i r' =? 10 then ret r' else batch_loop phase rest r'
  end.

(** The same iteration without the [break]: every batch is consumed. *)
Fixpoint batch_iter (phase : Phase) (bs : list Batch) (r : Running) : M Running :=
  match bs with
  | [] => ret r
  | b :: rest => r' <- batch_step phase b r ;; batch_iter phase rest r'
  end.

(** ** Local variables of [train_model] *)

Record Histories : Type := {
  train_loss_history : list Q;
  val_loss_history : list Q;
  train_acc_history : list Q;
  val_acc_history : list Q;
  train_f1_score : list Q;
  val_f1_score : list Q;
  plot_epoch : list Z
}.

Record Locals : Type := {
  hist : Histories;
  best_model_wts : StateDict;
  best_acc : Q
}.

Definition empty_histories : Histories :=
  {| train_loss_history := []; val_loss_history := [];
     train_acc_history := []; val_acc_history := [];
     train_f1_score := []; val_f1_score := []; plot_epoch := [] |}.

(** Lines 64-73; [copy.deepcopy] yields a value that later updates of the live
    model do not reach. *)
Definition init_locals (live : StateDict) : Locals :=
  {| hist := empty_histories; best_model_wts := live; best_acc := 0 |}.

(** What a phase leaves for [write_history]: loss, the four metrics and the
    confusion matrix. *)
Record PhaseVars : Type := {
  pv_loss : Q;
  pv_accuracy : Q;
  pv_f1 : Q;
  pv_precision : Q;
  pv_recall : Q;
  pv_confusion_matrix : list (list nat)
}.

Definition record_val (h : Histories) (epoch_acc epoch_loss : Q) : Histories :=
  {| train_loss_history := train_loss_history h;
     val_loss_history := val_loss_history h ++ [epoch_loss];
     train_acc_history := train_acc_history h;
     val_acc_history := val_acc_history h ++ [epoch_acc];
     train_f1_score := train_f1_score h;
     val_f1_score := val_f1_score h;
     plot_epoch := plot_epoch h |}.

Definition record_val_f1 (h : Histories) (f1 : Q) : Histories :=
  {| train_loss_history := train_loss_history h;
     val_loss_history := val_loss_history h;
     train_acc_history := train_acc_history h;
     val_acc_history := val_acc_history h;
     train_f1_score := train_f1_score h;
     val_f1_score := val_f1_score h ++ [f1];
     plot_epoch := plot_epoch h |}.

Definition record_train (h : Histories) (epoch_acc epoch_loss : Q) : Histories :=
  {| train_loss_history := train_loss_history h ++ [epoch_loss];
     val_loss_history := val_loss_history h;
     train_acc_history := train_acc_history h ++ [epoch_acc];
     val_acc_history := val_acc_history h;
     train_f1_score := train_f1_score h;
     val_f1_score := val_f1_score h;
     plot_epoch := plot_epoch h |}.

Definition record_train_f1 (h : Histories) (f1 : Q) (epoch : Z) : Histories :=
  {| train_loss_history := train_loss_history h;
     val_loss_history := val_loss_history h;
     train_acc_history := train_acc_history h;
     val_acc_history := val_acc_history h;
     train_f1_score := train_f1_score h ++ [f1];
     val_f1_score := val_f1_score h;
     plot_epoch := plot_epoch h ++ [epoch] |}.

Definition with_hist (L : Locals) (h : Histories) : Locals :=
  {| hist := h; best_model_wts := best_model_wts L; best_acc := best_acc L |}.

(** Lines 162-164: deep copy the model if the accuracy is the best so far. *)
Definition promote (epoch_acc : Q) (live : StateDict) (L : Locals) : Locals :=
  if Qgtb epoch_acc (best_acc L)
  then {| hist := hist L; best_model_wts := live; best_acc := epoch_acc |}
  else L.

(** ** One phase of one epoch (lines 79-186) *)

(** Lines 79-138: set the mode, run the batch loop, derive the epoch loss and
    accuracy and report them. *)
Definition phase_stats (dl : DataLoader) (phase : Phase) : M (Running * Q * Q) :=
  set_training (Phase_eqb phase train) ;;;
  r <- batch_loop phase (batches dl) init_running ;;
  epoch_loss <- call (py_div (running_loss r) (dataset_len dl)) ;;
  epoch_acc <- call (double_div (running_corrects r) (dataset_len dl)) ;;
  emit (PhaseComplete phase epoch_loss epoch_acc) ;;;
  ret (r, epoch_loss, epoch_acc).

(** Lines 146-186: the bookkeeping block of the phase. *)
Definition phase_bookkeeping (phase : Phase) (epoch : Z) (L : Locals)
    (r : Running) (epoch_loss epoch_acc : Q) : M (Locals * PhaseVars) :=
  match phase with
  | val =>
      let L1 := with_hist L (record_val (hist L) epoch_acc epoch_loss) in
      ' (acc, f1, prec, rec) <-
          call (get_acc_f1_precision_recall (pred_classes r) (ground_truths r)) ;;
      let L2 := with_hist L1 (record_val_f1 (hist L1) f1) in
      cm <- call (confusion_matrix (ground_truths r) (pred_classes r) labels10) ;;
      w <- get ;;
      ret (promote epoch_acc (weights w) L2,
           {| pv_loss := epoch_loss; pv_accuracy := acc; pv_f1 := f1;
              pv_precision := prec; pv_recall := rec;
              pv_confusion_matrix := cm |})
  | train =>
      let L1 := with_hist L (record_train (hist L) epoch_acc epoch_loss) in
      ' (acc, f1, prec, rec) <-
          call (get_acc_f1_precision_recall (pred_classes r) (ground_truths r)) ;;
      cm <- call (confusion_matrix (ground_truths r) (pred_classes r) labels10) ;;
      ret (with_hist L1 (record_train_f1 (hist L1) f1 epoch),
           {| pv_loss := epoch_loss; pv_accuracy := acc; pv_f1 := f1;
              pv_precision := prec; pv_recall := rec;
              pv_confusion_matrix := cm |})
  end.

Definition run_phase (dataloaders : Phase -> DataLoader) (epoch : Z)
    (phase : Phase) (L : Locals) : M (Locals * PhaseVars) :=
  ' (r, epoch_loss, epoch_acc) <- phase_stats (dataloaders phase) phase ;;
  phase_bookkeeping phase epoch L r epoch_loss epoch_acc.

(** ** One epoch (lines 75-207) *)

Definition history_record (name : string) (tr vl : PhaseVars) : HistoryRecord :=
  {| model_name := name;
     train_loss := pv_loss tr; val_loss := pv_loss vl;
     train_accuracy := pv_accuracy tr; val_accuracy := pv_accuracy vl;
     train_f1 := pv_f1 tr; val_f1 := pv_f1 vl;
     train_precision := pv_precision tr; val_precision := pv_precision vl;
     train_recall := pv_recall tr; val_recall := pv_recall vl;
     train_confusion_matrix := pv_confusion_matrix tr;
     val_confusion_matrix := pv_confusion_matrix vl |}.

(** Lines 188-207: save the weights, then write the history. *)
Definition persist (epoch : Z) (tr vl : PhaseVars) : M unit :=
  w <- get ;;
  name <- call (save_weights (weights w) epoch (optim w)) ;;
  emit (Checkpoint epoch name (weights w) (optim w)) ;;;
  call (write_history (history_record name tr vl)) ;;;
  emit (HistoryWritten (history_record name tr vl)).

(** [for phase in ['train', 'val']] followed by the two writes. *)
Definition epoch_body (dataloaders : Phase -> DataLoader) (epoch : Z)
    (L : Locals) : M Locals :=
  ' (L1, tr) <- run_phase dataloaders epoch train L ;;
  ' (L2, vl) <- run_phase dataloaders epoch val L1 ;;
  persist epoch tr vl ;;;
  ret L2.

Fixpoint epochs_loop (dataloaders : Phase -> DataLoader) (epochs : list Z)
    (L : Locals) : M Locals :=
  match epochs with
  | [] => ret L
  | epoch :: rest =>
      L' <- epoch_body dataloaders epoch L ;;
      epochs_loop dataloaders rest L'
  end.

(** ** [train_model] *)

Definition train_model (dataloaders : Phase -> DataLoader)
    (start_epoch num_epochs : Z) : M Histories :=
  call init_session_history ;;;
  emit SessionStarted ;;;
  w <- get ;;
  L <- epochs_loop dataloaders (py_range start_epoch num_epochs)
         (init_locals (weights w)) ;;
  load_state_dict (best_model_wts L) ;;;
  ret (hist L).

(** ** Reading the output of a run *)

(** The state dicts of the checkpoints written, in order. *)
Fixpoint checkpoints (evs : list event) : list (Z * StateDict) :=
  match evs with
  | [] => []
  | Checkpoint epoch _ s _ :: rest => (epoch, s) :: checkpoints rest
  | _ :: rest => checkpoints rest
  end.

Fixpoint history_file (evs : list event) : list HistoryRecord :=
  match evs with
  | [] => []
  | HistoryWritten r :: rest => r :: history_file rest
  | _ :: rest => history_file rest
  end.

(** Tensor shapes line up: the network returns one output row per input
    sample, and every batch has one label row per input sample. *)
Definition shapes_agree (dl : DataLoader) : Prop :=
  (forall m s x out, model_forward m s x = inr out -> length out = size0 x) /\
  Forall (fun b => length (action b) = size0 (video b)) (batches dl).


(** [best_acc] is the largest validation accuracy recorded so far, or the
    initial [0.0] while none has exceeded it. *)
Definition best_acc_is_running_max (L : Locals) : Prop :=
  (0 <= best_acc L)%Q /\
  (forall b, In b (val_acc_history (hist L)) -> (b <= best_acc L)%Q) /\
  (best_acc L = 0%Q \/ In (best_acc L) (val_acc_history (hist L))).

(** The best snapshot is the initial state dict while no validation accuracy
    has been positive, and afterwards the state dict checkpointed at the
    first epoch that reached the largest accuracy; [cps] are the checkpoints
    of the epochs run so far. *)
Definition best_is_first_max (init : StateDict) (cps : list (Z * StateDict))
    (L : Locals) : Prop :=
  length (val_acc_history (hist L)) = length cps /\
  ((best_acc L = 0%Q /\ best_model_wts L = init /\
    forall b, In b (val_acc_history (hist L)) -> (b <= 0)%Q) \/
   (exists k epoch,
       nth_error (val_acc_history (hist L)) k = Some (best_acc L) /\
       (0 < best_acc L)%Q /\
       (forall j b, nth_error (val_acc_history (hist L)) j = Some b ->
                    (b <= best_acc L)%Q /\ (j < k -> (b < best_acc L)%Q)) /\
       nth_error cps k = Some (epoch, best_model_wts L))).


(** ** Where an exception can come from *)









(** A loader cut after its tenth batch. *)
Definition first_ten (dl : DataLoader) : DataLoader :=
  {| batches := firstn 10 (batches dl); dataset_len := dataset_len dl |}.

End TrainLoop.

(** ** The notebook around [train_model] *)

(** The last checkpoint a run has written: its epoch, state dict and
    optimizer state. *)
Fixpoint last_checkpoint {T : Collaborators} (evs : list event)
  : option (Z * StateDict * OptimState) :=
  match evs with
  | [] => None
  | ev :: rest =>
      match last_checkpoint rest with
      | Some c => Some c
      | None =>
          match ev with
          | Checkpoint epoch _ s o => Some (epoch, s, o)
          | _ => None
          end
      end
  end.

(** Number of label rows a loader yields in one pass. *)
Definition rows_yielded {T : Collaborators} (dl : DataLoader) : nat :=
  list_sum_nat (map (fun b => length (action b)) (batches dl)).

(** *** Annotations by class (lines 218-241)

    [annotation_dict] is the list of [(key, label)] items of the JSON
    object; each of the ten lists keeps the items of one label. *)
Definition by_class (c : Z) (annotation_dict : list (string * Z))
  : list (string * Z) :=
  filter (fun val => (snd val =? c)%Z) annotation_dict.

Definition stop := by_class 0.
Definition ball_pass := by_class 1.
Definition race := by_class 2.
Definition pallegio := by_class 3.
Definition shooting := by_class 4.
Definition ballinhand := by_class 5.
Definition defence := by_class 6.
Definition pick_attempt := by_class 7.
Definition noaction := by_class 8.
Definition walk := by_class 9.

(** The ten lists, in the order of their labels. *)
Definition class_lists (annotation_dict : list (string * Z))
  : list (list (string * Z)) :=
  [stop annotation_dict; ball_pass annotation_dict; race annotation_dict;
   pallegio annotation_dict; shooting annotation_dict;
   ballinhand annotation_dict; defence annotation_dict;
   pick_attempt annotation_dict; noaction annotation_dict;
   walk annotation_dict].

Definition labelled_0_to_9 (val : string * Z) : bool :=
  ((0 <=? snd val) && (snd val <=? 9))%Z.

(** *** The two index subsets (lines 270-274)

    [shuffled] is [train_dataset_indices] after [np.random.shuffle]. *)
Definition train_idx (shuffled : list nat) : list nat := firstn 100 shuffled.

Definition test_idx (shuffled : list nat) : list nat :=
  firstn (200 - 100) (skipn 100 shuffled).

(** *** Choosing the trainable layers (lines 294-300) *)

(** [sub in s] on Python strings. *)
Fixpoint py_in (sub s : string) : bool :=
  prefix sub s ||
  match s with
  | EmptyString => false
  | String _ s' => py_in sub s'
  end.

(** [for param in model.parameters(): param.requires_grad = False] *)
Definition freeze_all (params : list (string * bool)) : list (string * bool) :=
  map (fun np => (fst np, false)) params.

(** [for layer in args.layers_list: if layer in name: ... = True], for one
    parameter. *)
Fixpoint unfreeze_layers (layers_list : list string) (name : string)
    (requires_grad : bool) : bool :=
  match layers_list with
  | [] => requires_grad
  | layer :: rest =>
      unfreeze_layers rest name (if py_in layer name then true else requires_grad)
  end.

Definition unfreeze (layers_list : list string) (params : list (string * bool))
  : list (string * bool) :=
  map (fun np => (fst np, unfreeze_layers layers_list (fst np) (snd np))) params.

(** Both loops, on the named parameters with their [requires_grad] flags. *)
Definition select_trainable (layers_list : list string)
    (params : list (string * bool)) : list (string * bool) :=
  unfreeze layers_list (freeze_all params).

(** *** The best-loss summary (lines 341-342) *)

Inductive builtin_exn : Type := ValueError.

(** [min(l)]: the first smallest element; an empty list raises. *)
Fixpoint min_from (cur : Q) (l : list Q) : Q :=
  match l with
  | [] => cur
  | x :: rest => if Qgtb cur x then min_from x rest else min_from cur rest
  end.

Definition py_min (l : list Q) : builtin_exn + Q :=
  match l with
  | [] => inl ValueError
  | x :: rest => inr (min_from x rest)
  end.

(** [l.index(x)]: the first position holding a value equal to [x]. *)
Fixpoint index_from (k : nat) (l : list Q) (x : Q) : builtin_exn + nat :=
  match l with
  | [] => inl ValueError
  | y :: rest => if Qeq_bool y x then inr k else index_from (S k) rest x
  end.

Definition py_index (l : list Q) (x : Q) : builtin_exn + nat := index_from 0 l x.

(** [min(history), history.index(min(history))], the two values one of the
    summary lines prints. *)
Definition best_loss_summary (history : list Q) : builtin_exn + (Q * nat) :=
  match py_min history with
  | inl e => inl e
  | inr m =>
      match py_index history m with
      | inl e => inl e
      | inr k => inr (m, k)
      end
  end.

(** *** The same two lines on Python floats

    A loss history holds Python floats, which besides the finite values
    include the two infinities and NaN.  Every comparison with NaN is false,
    so [min] and [index] are followed here as the interpreter runs them:
    [min] compares with [<], [index] tests identity before [==]. *)

Inductive pyfloat : Type := NegInf | Finite (q : Q) | PosInf | NaN.

(** [a < b] *)
Definition float_lt (a b : pyfloat) : bool :=
  match a, b with
  | NaN, _ | _, NaN => false
  | _, NegInf => false
  | NegInf, _ => true
  | PosInf, _ => false
  | Finite _, PosInf => true
  | Finite x, Finite y => Qgtb y x
  end.

(** [a == b] *)
Definition float_eq (a b : pyfloat) : bool :=
  match a, b with
  | NegInf, NegInf | PosInf, PosInf => true
  | Finite x, Finite y => Qeq_bool x y
  | _, _ => false
  end.

(** An item of the history: the float object appended by one epoch, told
    apart from the others by its position, and its value. *)
Definition float_item : Type := nat * pyfloat.

(** [min(l)]: the first item is kept until a later one compares less than the
    one kept; the result is an item of the list, not a copy. *)
Fixpoint float_min_from (cur : float_item) (k : nat) (l : list pyfloat)
  : float_item :=
  match l with
  | [] => cur
  | x :: rest =>
      if float_lt x (snd cur) then float_min_from (k, x) (S k) rest
      else float_min_from cur (S k) rest
  end.

Definition float_min (l : list pyfloat) : builtin_exn + float_item :=
  match l with
  | [] => inl ValueError
  | x :: rest => inr (float_min_from (0, x) 1 rest)
  end.

(** [l.index(obj)]: the first position whose item is [obj] itself or compares
    equal to it. *)
Fixpoint float_index_from (k : nat) (l : list pyfloat) (obj : float_item)
  : builtin_exn + nat :=
  match l with
  | [] => inl ValueError
  | y :: rest =>
      if (k =? fst obj) || float_eq y (snd obj) then inr k
      else float_index_from (S k) rest obj
  end.

Definition float_index (l : list pyfloat) (obj : float_item)
  : builtin_exn + nat :=
  float_index_from 0 l obj.

(** [min(history), history.index(min(history))] on floats. *)
Definition float_loss_summary (history : list pyfloat)
  : builtin_exn + (pyfloat * nat) :=
  match float_min history with
  | inl e => inl e
  | inr obj =>
      match float_index history obj with
      | inl e => inl e
      | inr k => inr (snd obj, k)
      end
  end.

(** The item [min] keeps while it walks the list: it is an item of the part
    seen so far, no item seen compares less than it, and every item before it
    is NaN or strictly larger. *)
Definition kept_minimum (seen : list pyfloat) (cur : float_item) : Prop :=
  nth_error seen (fst cur) = Some (snd cur) /\
  snd cur <> NaN /\
  (forall y, In y seen -> float_lt y (snd cur) = false) /\
  (forall j y, j < fst cur -> nth_error seen j = Some y ->
               y = NaN \/ float_lt (snd cur) y = true).

(** What [best_loss_summary] returns, read as floats. *)
Definition as_float_summary (r : builtin_exn + (Q * nat))
  : builtin_exn + (pyfloat * nat) :=
  match r with
  | inl e => inl e
  | inr (m, k) => inr (Finite m, k)
  end.

(** The lengths of the seven history sequences, in the order in which
    [train_model] returns them. *)
Definition history_lengths (h : Histories) : list nat :=
  [length (train_loss_history h); length (val_loss_history h);
   length (train_acc_history h); length (val_acc_history h);
   length (train_f1_score h); length (val_f1_score h);
   length (plot_epoch h)].

(** ** A small concrete set of collaborators

    The state dict is a step counter; the network predicts the class
    [weights mod 10] for every sample of the batch; an optimizer step adds one;
    the criterion counts the rows whose arg-max misses the target. *)

Definition one_hot (c : nat) : list Q :=
  map (fun j => if j =? c then 1%Q else 0%Q) (seq 0 10).

Definition toy_forward (_ : bool) (s : nat) (x : list nat)
  : exn + list (list Q) :=
  inr (map (fun _ => one_hot (s mod 10)) x).

Definition toy_criterion (outputs : list (list Q)) (targets : list nat)
  : exn + Q :=
  match torch_max_1 outputs with
  | inl e => inl e
  | inr preds => inr (Q_of_nat (List.length targets - count_eq preds targets))
  end.

Definition toy_metrics (pred truth : list nat) : exn + (Q * Q * Q * Q) :=
  inr (metrics_accuracy pred truth, 0%Q, 0%Q, 0%Q).

(** [save_fails] chooses the epochs whose checkpoint write raises. *)
Definition toy_with (save_fails : Z -> bool) : Collaborators :=
  {| StateDict := nat;
     OptimState := nat;
     Grads := unit;
     Video := list nat;
     size0 := @List.length nat;
     inputs_to_device := fun _ => inr tt;
     labels_to_device := fun _ => inr tt;
     model_forward := toy_forward;
     criterion := toy_criterion;
     backward := fun _ _ _ => inr tt;
     optimizer_step := fun o s _ => inr (S s, S o);
     get_acc_f1_precision_recall := toy_metrics;
     save_weights := fun _ epoch _ =>
       if save_fails epoch then inl (Failure "save_weights") else inr "ckpt"%string;
     write_history := fun _ => inr tt;
     init_session_history := inr tt |}.

Definition toy : Collaborators := toy_with (fun _ => false).


(** A batch of the toy loaders: sample ids and their classes. *)
Definition toy_batch {T : Collaborators} (v : Video) (classes : list nat)
  : Batch :=
  {| fetched := inr tt; video := v; action := map one_hot classes |}.

Definition toy_train_loader : @DataLoader toy :=
  {| batches := [@toy_batch toy [0; 1] [1; 1]]; dataset_len := 2 |}.

(** Four validation samples: three of class 2, one of class 1. *)
Definition toy_val_loader : @DataLoader toy :=
  {| batches := [@toy_batch toy [0; 1] [2; 2]; @toy_batch toy [2; 3] [2; 1]];
     dataset_len := 4 |}.

(** Validation samples of a class the toy network never predicts here. *)
Definition toy_val_loader_hard : @DataLoader toy :=
  {| batches := [@toy_batch toy [0; 1] [9; 9]]; dataset_len := 2 |}.

(** Twelve validation batches of one sample each, of class 1. *)
Definition toy_val_loader_long : @DataLoader toy :=
  {| batches := map (fun k => @toy_batch toy [k] [1]) (seq 0 12);
     dataset_len := 12 |}.

Definition toy_loaders (p : Phase) : @DataLoader toy :=
  match p with train => toy_train_loader | val => toy_val_loader end.

Definition toy_loaders_hard (p : Phase) : @DataLoader toy :=
  match p with train => toy_train_loader | val => toy_val_loader_hard end.

Definition toy_loaders_long (p : Phase) : @DataLoader toy :=
  match p with train => toy_train_loader | val => toy_val_loader_long end.


(** A fresh model with step counter [s], in training mode, before any output. *)
Definition toy_start (s : nat) : @World toy :=
  @Build_World toy s true 0 [].


(** Two batches of two samples, of classes 4, 7 and 3, 1. *)
Definition toy_batch_47 : @Batch toy := @toy_batch toy [0; 1] [4; 7].
Definition toy_batch_31 : @Batch toy := @toy_batch toy [0; 1] [3; 1].

(** ** Concrete runs, evaluated *)

Definition returned_value {T : Collaborators} {A} (d : A) (o : outcome A) : A :=
  match o with Returned a _ => a | Raised _ _ => d end.

(** Four epochs on the toy loaders: validation accuracies 1/4, 3/4, 0, 0. *)
Definition toy_run : @outcome toy Histories :=
  train_model (T := toy) toy_loaders 1 5 (toy_start 0).
Definition toy_run_hist : Histories :=
  Eval vm_compute in returned_value empty_histories toy_run.
Definition toy_run_world : @World toy :=
  Eval vm_compute in final_world toy_run.


(** The first epoch alone, on either validation set, and the second epoch
    after the first. *)
Definition toy_epoch1 : @outcome toy Locals :=
  epoch_body (T := toy) toy_loaders 1 (@init_locals toy 0) (toy_start 0).
Definition toy_epoch1_locals : @Locals toy :=
  Eval vm_compute in returned_value (@init_locals toy 0) toy_epoch1.
Definition toy_epoch1_world : @World toy :=
  Eval vm_compute in final_world toy_epoch1.

Definition toy_epoch2 : @outcome toy Locals :=
  epoch_body (T := toy) toy_loaders 2 toy_epoch1_locals toy_epoch1_world.
Definition toy_epoch2_locals : @Locals toy :=
  Eval vm_compute in returned_value (@init_locals toy 0) toy_epoch2.
Definition toy_epoch2_world : @World toy :=
  Eval vm_compute in final_world toy_epoch2.

Definition toy_hard_epoch1 : @outcome toy Locals :=
  epoch_body (T := toy) toy_loaders_hard 1 (@init_locals toy 0) (toy_start 0).
Definition toy_hard_epoch1_locals : @Locals toy :=
  Eval vm_compute in returned_value (@init_locals toy 0) toy_hard_epoch1.
Definition toy_hard_epoch1_world : @World toy :=
  Eval vm_compute in final_world toy_hard_epoch1.

(** A val phase over twelve batches, with weights that predict class 1. *)
Definition toy_long_batches : @outcome toy Running :=
  batch_loop (T := toy) val (batches (toy_loaders_long val)) init_running
    (toy_start 1).
Definition toy_long_running : Running :=
  Eval vm_compute in returned_value init_running toy_long_batches.

Definition toy_long_phase : @outcome toy (Locals * PhaseVars) :=
  run_phase (T := toy) toy_loaders_long 1 val (@init_locals toy 0)
    (toy_start 1).
Definition toy_long_locals : @Locals toy :=
  Eval vm_compute in
    match toy_long_phase with
    | Returned (L, _) _ => L
    | Raised _ _ => @init_locals toy 0
    end.
Definition toy_long_vars : PhaseVars :=
  Eval vm_compute in
    match toy_long_phase with
    | Returned (_, pv) _ => pv
    | Raised _ _ =>
        {| pv_loss := 0; pv_accuracy := 0; pv_f1 := 0; pv_precision := 0;
           pv_recall := 0; pv_confusion_matrix := [] |}
    end.
Definition toy_long_world : @World toy :=
  Eval vm_compute in final_world toy_long_phase.




(** A train loader that yields nothing over a dataset of two samples. *)
Definition toy_loaders_empty (p : Phase) : @DataLoader toy :=
  match p with
  | train => {| batches := []; dataset_len := 2 |}
  | val => toy_val_loader
  end.

(** A val phase over the whole validation set, with weights that predict
    class 2. *)
Definition toy_full_phase : @outcome toy (Locals * PhaseVars) :=
  run_phase (T := toy) toy_loaders 1 val (@init_locals toy 0) (toy_start 2).
Definition toy_full_locals : @Locals toy :=
  Eval vm_compute in
    match toy_full_phase with
    | Returned (L, _) _ => L
    | Raised _ _ => @init_locals toy 0
    end.
Definition toy_full_vars : PhaseVars :=
  Eval vm_compute in
    match toy_full_phase with
    | Returned (_, pv) _ => pv
    | Raised _ _ =>
        {| pv_loss := 0; pv_accuracy := 0; pv_f1 := 0; pv_precision := 0;
           pv_recall := 0; pv_confusion_matrix := [] |}
    end.
Definition toy_full_world : @World toy :=
  Eval vm_compute in final_world toy_full_phase.

(** A few annotations, one of them with a label outside 0..9. *)
Definition toy_annotations : list (string * Z) :=
  [("clip0"%string, 4%Z); ("clip1"%string, 0%Z); ("clip2"%string, 4%Z);
   ("clip3"%string, 12%Z); ("clip4"%string, 9%Z)].

(** Named parameters of a small network, all trainable at first. *)
Definition toy_named_parameters : list (string * bool) :=
  [("stem.0.weight"%string, true); ("layer3.0.conv1.weight"%string, true);
   ("layer4.1.bn.bias"%string, true); ("fc.weight"%string, true);
   ("fc.bias"%string, true)].

Definition toy_layers_list : list string :=
  ["layer3"%string; "layer4"%string; "fc"%string].

(** Loss histories with a NaN, in first position and further on. *)
Definition toy_float_history_nan_first : list pyfloat :=
  [NaN; Finite (1 # 2); Finite (3 # 10)].
Definition toy_float_history_nan_inside : list pyfloat :=
  [Finite (1 # 2); NaN; Finite (3 # 10)].

(** A loss history whose minimum is reached twice. *)
Definition toy_loss_history : list Q := [3 # 2; 1 # 2; 2 # 4; 5 # 1]%Q.

(** * Verification *)

Section Verification.

Context {T : Collaborators}.
Local Open Scope train_scope.

(** Case analysis on every call a straight-line body makes. *)
Ltac is_call x :=
  lazymatch x with
  | context [match _ with _ => _ end] => fail
  | _ => idtac
  end.

Ltac split_calls H :=
  repeat match type of H with
         | context [match ?x with _ => _ end] =>
             is_call x; destruct x eqn:?; simpl in H; try discriminate H
         end.

Ltac split_goal_calls :=
  repeat match goal with
         | |- context [match ?x with _ => _ end] =>
             is_call x; destruct x eqn:?; simpl
         end.

(** ** One batch *)

Lemma batch_step_val_world b r w :
  final_world (batch_step val b r w) = w.
Proof.
  unfold batch_step, backward_and_step, bind, call, get, ret; simpl.
  split_goal_calls; reflexivity.
Qed.

Lemma batch_step_frame p b r w :
  io (final_world (batch_step p b r w)) = io w /\
  training (final_world (batch_step p b r w)) = training w.
Proof.
  unfold batch_step, backward_and_step, bind, call, get, ret, set_model.
  destruct p; simpl; split_goal_calls; auto.
Qed.

Lemma batch_step_returned p b r w r' w' :
  batch_step p b r w = Returned r' w' ->
  exists outputs targets loss preds c,
    model_forward (training w) (weights w) (video b) = inr outputs /\
    torch_max_1 (action b) = inr targets /\
    criterion outputs targets = inr loss /\
    torch_max_1 outputs = inr preds /\
    tensor_eq_sum preds targets = inr c /\
    r' = {| running_loss :=
              (running_loss r + loss * Q_of_nat (size0 (video b)))%Q;
            running_corrects := counter_add (running_corrects r) c;
            pred_classes := pred_classes r ++ preds;
            ground_truths := ground_truths r ++ targets;
            i := S (i r) |} /\
    match p with
    | val => w' = w
    | train =>
        exists g, backward (weights w) (video b) targets = inr g /\
                  optimizer_step (optim w) (weights w) g
                  = inr (weights w', optim w') /\
                  training w' = training w /\ io w' = io w
    end.
Proof.
  unfold batch_step, backward_and_step, bind, call, get, ret, set_model.
  destruct p; simpl; intros H; split_calls H;
    inversion H; subst; clear H;
    do 5 eexists; repeat (split; [reflexivity|]); simpl; eauto 10.
Qed.

(** The converse: when every call of the body succeeds, the step returns. *)
Lemma batch_step_val_runs b r w outputs targets loss preds c :
  fetched b = inr tt ->
  inputs_to_device (video b) = inr tt ->
  labels_to_device (action b) = inr tt ->
  model_forward (training w) (weights w) (video b) = inr outputs ->
  torch_max_1 (action b) = inr targets ->
  criterion outputs targets = inr loss ->
  torch_max_1 outputs = inr preds ->
  tensor_eq_sum preds targets = inr c ->
  batch_step val b r w
  = Returned {| running_loss :=
                  (running_loss r + loss * Q_of_nat (size0 (video b)))%Q;
                running_corrects := counter_add (running_corrects r) c;
                pred_classes := pred_classes r ++ preds;
                ground_truths := ground_truths r ++ targets;
                i := S (i r) |} w.
Proof.
  intros Hb Hi Hl Hf Ht Hc Hp Hs.
  unfold batch_step, backward_and_step, bind, call, get, ret; simpl.
  rewrite Hb, Hi, Hl, Hf, Ht, Hc, Hp, Hs. reflexivity.
Qed.

Lemma batch_step_counter p b r w r' w' :
  batch_step p b r w = Returned r' w' -> i r' = S (i r).
Proof.
  intros H. apply batch_step_returned in H.
  destruct H as (? & ? & ? & ? & ? & _ & _ & _ & _ & _ & -> & _). reflexivity.
Qed.

(** ** The batch loop *)

Lemma batch_loop_cons p b rest r w :
  batch_loop p (b :: rest) r w =
  match batch_step p b r w with
  | Returned r' w' => if i r' =? 10 then Returned r' w' else batch_loop p rest r' w'
  | Raised e w' => Raised e w'
  end.
Proof.
  simpl. unfold bind. destruct (batch_step p b r w) as [r' w' | e w']; auto.
  destruct (i r' =? 10); reflexivity.
Qed.

Lemma batch_iter_cons p b rest r w :
  batch_iter p (b :: rest) r w =
  match batch_step p b r w with
  | Returned r' w' => batch_iter p rest r' w'
  | Raised e w' => Raised e w'
  end.
Proof. reflexivity. Qed.

Lemma batch_loop_is_capped_iter p bs : forall r w,
  i r < 10 ->
  batch_loop p bs r w = batch_iter p (firstn (10 - i r) bs) r w.
Proof.
  induction bs as [| b rest IH]; intros r w Hlt.
  - rewrite firstn_nil. reflexivity.
  - destruct (10 - i r) as [| k] eqn:Hk; [lia|].
    rewrite batch_loop_cons. cbn [firstn]. rewrite batch_iter_cons.
    destruct (batch_step p b r w) as [r' w' | e w'] eqn:Hstep; [| reflexivity].
    pose proof (batch_step_counter _ _ _ _ _ _ Hstep) as Hi.
    destruct (i r' =? 10) eqn:Hten.
    + apply Nat.eqb_eq in Hten. assert (k = 0) by lia. subst k. reflexivity.
    + apply Nat.eqb_neq in Hten. rewrite IH by lia.
      replace (10 - i r') with k by lia. reflexivity.
Qed.

Lemma batch_iter_counter p bs : forall r w r' w',
  batch_iter p bs r w = Returned r' w' -> i r' = i r + length bs.
Proof.
  induction bs as [| b rest IH]; intros r w r' w' H.
  - inversion H; subst. simpl. lia.
  - rewrite batch_iter_cons in H.
    destruct (batch_step p b r w) as [r1 w1 | e w1] eqn:Hstep; [| discriminate].
    apply IH in H. apply batch_step_counter in Hstep. simpl. lia.
Qed.

Lemma batch_iter_frame p bs : forall r w,
  io (final_world (batch_iter p bs r w)) = io w /\
  training (final_world (batch_iter p bs r w)) = training w.
Proof.
  induction bs as [| b rest IH]; intros r w; [split; reflexivity|].
  rewrite batch_iter_cons.
  pose proof (batch_step_frame p b r w) as [Hio Htr].
  destruct (batch_step p b r w) as [r1 w1 | e w1]; simpl in *; [| auto].
  destruct (IH r1 w1) as [-> ->]. auto.
Qed.

Lemma batch_iter_val_world bs : forall r w,
  final_world (batch_iter val bs r w) = w.
Proof.
  induction bs as [| b rest IH]; intros r w; [reflexivity|].
  rewrite batch_iter_cons.
  pose proof (batch_step_val_world b r w) as Hw.
  destruct (batch_step val b r w) as [r1 w1 | e w1]; simpl in *; [| auto].
  rewrite IH. exact Hw.
Qed.

Lemma batch_loop_from_start p bs w :
  batch_loop p bs init_running w = batch_iter p (firstn 10 bs) init_running w.
Proof. apply (batch_loop_is_capped_iter p bs init_running w). simpl. lia. Qed.

Lemma batch_loop_frame p bs w :
  io (final_world (batch_loop p bs init_running w)) = io w /\
  training (final_world (batch_loop p bs init_running w)) = training w.
Proof. rewrite batch_loop_from_start. apply batch_iter_frame. Qed.

Lemma batch_loop_val_world bs w :
  final_world (batch_loop val bs init_running w) = w.
Proof. rewrite batch_loop_from_start. apply batch_iter_val_world. Qed.

(** ** One phase *)

Lemma phase_stats_returned dl p w r l a w' :
  phase_stats dl p w = Returned (r, l, a) w' ->
  exists w1,
    batch_loop p (batches dl) init_running
      (with_training (Phase_eqb p train) w) = Returned r w1 /\
    py_div (running_loss r) (dataset_len dl) = inr l /\
    double_div (running_corrects r) (dataset_len dl) = inr a /\
    w' = with_io (io w1 ++ [PhaseComplete p l a]) w1.
Proof.
  unfold phase_stats, bind, set_training, call, emit, ret.
  intros H; split_calls H. inversion H; subst; clear H. eauto.
Qed.

Lemma phase_stats_raised dl p w e w' :
  phase_stats dl p w = Raised e w' ->
  batch_loop p (batches dl) init_running
    (with_training (Phase_eqb p train) w) = Raised e w' \/
  exists r,
    batch_loop p (batches dl) init_running
      (with_training (Phase_eqb p train) w) = Returned r w' /\
    (py_div (running_loss r) (dataset_len dl) = inl e \/
     exists l, py_div (running_loss r) (dataset_len dl) = inr l /\
               double_div (running_corrects r) (dataset_len dl) = inl e).
Proof.
  unfold phase_stats, bind, set_training, call, emit, ret.
  intros H; split_calls H; inversion H; subst; clear H; eauto 8.
Qed.

(** The effect of the statistics part of a phase on the state, whatever its
    outcome: the mode is the phase's, one report is appended on success and
    nothing on failure. *)
Lemma phase_stats_world dl p w :
  training (final_world (phase_stats dl p w)) = Phase_eqb p train /\
  io (final_world (phase_stats dl p w)) =
    io w ++ match phase_stats dl p w with
            | Returned (_, l, a) _ => [PhaseComplete p l a]
            | Raised _ _ => []
            end.
Proof.
  destruct (phase_stats dl p w) as [[[r l] a] w' | e w'] eqn:H; simpl.
  - apply phase_stats_returned in H. destruct H as (w1 & Hloop & _ & _ & ->).
    pose proof (batch_loop_frame p (batches dl)
                  (with_training (Phase_eqb p train) w)) as [Hio Htr].
    rewrite Hloop in Hio, Htr. simpl in *. now rewrite Hio, Htr.
  - pose proof (batch_loop_frame p (batches dl)
                  (with_training (Phase_eqb p train) w)) as [Hio Htr].
    apply phase_stats_raised in H.
    destruct H as [H | (r & H & _)]; rewrite H in Hio, Htr; simpl in *;
      now rewrite Hio, Htr, app_nil_r.
Qed.

Lemma phase_stats_val_model dl w :
  weights (final_world (phase_stats dl val w)) = weights w /\
  optim (final_world (phase_stats dl val w)) = optim w.
Proof.
  pose proof (batch_loop_val_world (batches dl)
                (with_training (Phase_eqb val train) w)) as Hw.
  destruct (phase_stats dl val w) as [[[r l] a] w' | e w'] eqn:H; simpl.
  - apply phase_stats_returned in H. destruct H as (w1 & Hloop & _ & _ & ->).
    rewrite Hloop in Hw. simpl in Hw. subst w1. auto.
  - apply phase_stats_raised in H.
    destruct H as [H | (r & H & _)]; rewrite H in Hw; simpl in Hw; subst w';
      auto.
Qed.

Lemma phase_bookkeeping_world p epoch L r l a w :
  final_world (phase_bookkeeping p epoch L r l a w) = w.
Proof.
  unfold phase_bookkeeping, bind, call, get, ret.
  destruct p; simpl; split_goal_calls; reflexivity.
Qed.

Lemma run_phase_unfold dls epoch p L w :
  run_phase dls epoch p L w =
  match phase_stats (dls p) p w with
  | Returned (r, l, a) w1 => phase_bookkeeping p epoch L r l a w1
  | Raised e w1 => Raised e w1
  end.
Proof.
  unfold run_phase, bind.
  destruct (phase_stats (dls p) p w) as [[[r l] a] w1 | e w1]; reflexivity.
Qed.

Lemma run_phase_returned dls epoch p L w L' pv w' :
  run_phase dls epoch p L w = Returned (L', pv) w' ->
  exists r l a acc f1 prec rec cm,
    phase_stats (dls p) p w = Returned (r, l, a) w' /\
    get_acc_f1_precision_recall (pred_classes r) (ground_truths r)
      = inr (acc, f1, prec, rec) /\
    confusion_matrix (ground_truths r) (pred_classes r) labels10 = inr cm /\
    pv = {| pv_loss := l; pv_accuracy := acc; pv_f1 := f1;
            pv_precision := prec; pv_recall := rec;
            pv_confusion_matrix := cm |} /\
    L' = match p with
         | val =>
             promote a (weights w')
               (with_hist L (record_val_f1 (record_val (hist L) a l) f1))
         | train =>
             with_hist L (record_train_f1 (record_train (hist L) a l) f1 epoch)
         end.
Proof.
  rewrite run_phase_unfold.
  destruct (phase_stats (dls p) p w) as [[[r l] a] w1 | e w1]; [| discriminate].
  unfold phase_bookkeeping, bind, call, get, ret.
  destruct p; simpl; intros H; split_calls H; inversion H; subst; clear H;
    do 8 eexists;
    repeat (split; [first [reflexivity | eassumption]|]); reflexivity.
Qed.


Lemma run_phase_val_model dls epoch L w :
  weights (final_world (run_phase dls epoch val L w)) = weights w /\
  optim (final_world (run_phase dls epoch val L w)) = optim w.
Proof.
  rewrite run_phase_unfold.
  pose proof (phase_stats_val_model (dls val) w) as Hm.
  destruct (phase_stats (dls val) val w) as [[[r l] a] w1 | e w1]; simpl in Hm.
  - now rewrite phase_bookkeeping_world.
  - exact Hm.
Qed.

(** ** One epoch *)

Lemma persist_returned epoch tr vl w u w' :
  persist epoch tr vl w = Returned u w' ->
  exists name,
    save_weights (weights w) epoch (optim w) = inr name /\
    write_history (history_record name tr vl) = inr tt /\
    w' = with_io (io w ++ [Checkpoint epoch name (weights w) (optim w);
                           HistoryWritten (history_record name tr vl)]) w.
Proof.
  unfold persist, bind, call, get, emit, ret.
  intros H; split_calls H. inversion H; subst; clear H.
  exists s. split; [reflexivity|]. split; [destruct u0; assumption|].
  unfold with_io; simpl. now rewrite <- app_assoc.
Qed.


Lemma epoch_body_unfold dls epoch L w :
  epoch_body dls epoch L w =
  match run_phase dls epoch train L w with
  | Returned (L1, tr) w1 =>
      match run_phase dls epoch val L1 w1 with
      | Returned (L2, vl) w2 =>
          match persist epoch tr vl w2 with
          | Returned _ w3 => Returned L2 w3
          | Raised e w3 => Raised e w3
          end
      | Raised e w2 => Raised e w2
      end
  | Raised e w1 => Raised e w1
  end.
Proof.
  unfold epoch_body, bind, ret.
  destruct (run_phase dls epoch train L w) as [[L1 tr] w1 | e w1]; auto.
  destruct (run_phase dls epoch val L1 w1) as [[L2 vl] w2 | e w2]; auto.
Qed.

Lemma epoch_body_returned dls epoch L w L' w' :
  epoch_body dls epoch L w = Returned L' w' ->
  exists L1 tr w1 vl w2,
    run_phase dls epoch train L w = Returned (L1, tr) w1 /\
    run_phase dls epoch val L1 w1 = Returned (L', vl) w2 /\
    persist epoch tr vl w2 = Returned tt w'.
Proof.
  rewrite epoch_body_unfold.
  destruct (run_phase dls epoch train L w) as [[L1 tr] w1 | e w1] eqn:Ht;
    [| discriminate].
  destruct (run_phase dls epoch val L1 w1) as [[L2 vl] w2 | e w2] eqn:Hv;
    [| discriminate].
  destruct (persist epoch tr vl w2) as [[] w3 | e w3] eqn:Hp; [| discriminate].
  intros H; inversion H; subst. exists L1, tr, w1, vl, w2. auto.
Qed.

Lemma epochs_loop_cons dls epoch rest L w :
  epochs_loop dls (epoch :: rest) L w =
  match epoch_body dls epoch L w with
  | Returned L' w' => epochs_loop dls rest L' w'
  | Raised e w' => Raised e w'
  end.
Proof. reflexivity. Qed.

Lemma train_model_unfold dls s n w :
  train_model dls s n w =
  match init_session_history with
  | inl e => Raised e w
  | inr _ =>
      match epochs_loop dls (py_range s n) (init_locals (weights w))
              (with_io (io w ++ [SessionStarted]) w) with
      | Returned L w1 =>
          Returned (hist L) (with_model (best_model_wts L) (optim w1) w1)
      | Raised e w1 => Raised e w1
      end
  end.
Proof.
  unfold train_model, bind, call, emit, get, load_state_dict, ret.
  destruct init_session_history as [e | u]; [reflexivity|].
  simpl.
  destruct (epochs_loop dls (py_range s n) _ _) as [L w1 | e w1]; reflexivity.
Qed.

Lemma py_range_empty s n : (n <= s)%Z -> py_range s n = [].
Proof.
  intros H. unfold py_range.
  replace (Z.to_nat (n - s)) with 0 by lia. reflexivity.
Qed.

(** ** Zero epochs *)

(** C5: when [num_epochs = start_epoch] (and the session history can be
    initialised) no epoch runs: [train_model] returns, all seven history
    sequences are empty, and the model it returns carries the parameters it
    had at the call; the only trace of the run is the session header. *)
Theorem train_model_zero_epochs dls start_epoch w :
  init_session_history = inr tt ->
  train_model dls start_epoch start_epoch w
    = Returned empty_histories (with_io (io w ++ [SessionStarted]) w) /\
  weights (final_world (train_model dls start_epoch start_epoch w)) = weights w.
Proof.
  intros Hinit.
  assert (E : train_model dls start_epoch start_epoch w
              = Returned empty_histories (with_io (io w ++ [SessionStarted]) w)).
  { rewrite train_model_unfold, Hinit, py_range_empty by lia. reflexivity. }
  rewrite E. split; reflexivity.
Qed.

(** ** The cap of ten batches *)

(** C6: the batch loop of a phase is the plain iteration over the first ten
    batches of the loader; when it completes it has processed
    [min 10 (number of batches)] of them, and a phase run on the loader cut
    after its tenth batch has the same outcome, so later batches are never
    consumed. *)
Theorem batch_loop_caps_at_ten (dls : Phase -> DataLoader) epoch p L w :
  batch_loop p (batches (dls p)) init_running w
    = batch_iter p (firstn 10 (batches (dls p))) init_running w /\
  (forall r w',
      batch_loop p (batches (dls p)) init_running w = Returned r w' ->
      i r = Nat.min 10 (length (batches (dls p))) /\ i r <= 10) /\
  run_phase dls epoch p L w
    = run_phase (fun q => first_ten (dls q)) epoch p L w.
Proof.
  split; [apply batch_loop_from_start|]. split.
  - intros r w' H. rewrite batch_loop_from_start in H.
    apply batch_iter_counter in H. rewrite length_firstn in H.
    unfold init_running in H; cbn [i] in H. lia.
  - rewrite !run_phase_unfold. unfold phase_stats, first_ten, bind; simpl.
    rewrite (batch_loop_from_start p (firstn 10 (batches (dls p)))).
    rewrite firstn_firstn, Nat.min_id, <- batch_loop_from_start. reflexivity.
Qed.

(** ** The validation phase is read-only on the model *)

(** C3: a val phase, whether it completes or raises, leaves the parameters and
    the optimizer state as they were; a val batch leaves the whole state as it
    was while its forward pass runs on those parameters and its predictions
    and correct count are accumulated; a train batch is the one that runs
    [backward] and the optimizer step. *)
Theorem val_phase_keeps_parameters dls epoch L w :
  (weights (final_world (run_phase dls epoch val L w)) = weights w /\
   optim (final_world (run_phase dls epoch val L w)) = optim w) /\
  (forall b r, final_world (batch_step val b r w) = w) /\
  (forall b r r' w',
      batch_step val b r w = Returned r' w' ->
      exists outputs preds targets c,
        model_forward (training w) (weights w) (video b) = inr outputs /\
        torch_max_1 outputs = inr preds /\
        torch_max_1 (action b) = inr targets /\
        tensor_eq_sum preds targets = inr c /\
        pred_classes r' = pred_classes r ++ preds /\
        running_corrects r' = counter_add (running_corrects r) c) /\
  (forall b r r' w',
      batch_step train b r w = Returned r' w' ->
      exists targets g,
        torch_max_1 (action b) = inr targets /\
        backward (weights w) (video b) targets = inr g /\
        optimizer_step (optim w) (weights w) g = inr (weights w', optim w')).
Proof.
  split; [apply run_phase_val_model|].
  split; [intros b r; apply batch_step_val_world|]. split.
  - intros b r r' w' H. apply batch_step_returned in H.
    destruct H as (outputs & targets & loss & preds & c
                   & Hf & Ht & _ & Hp & Hs & -> & _).
    exists outputs, preds, targets, c. auto 10.
  - intros b r r' w' H. apply batch_step_returned in H.
    destruct H as (outputs & targets & loss & preds & c
                   & _ & Ht & _ & _ & _ & _ & g & Hb & Ho & _).
    exists targets, g. auto.
Qed.

(** ** What an epoch emits *)


(** C4: an epoch that completes appends exactly four events to the output, in
    this order: the train phase's statistics, the val phase's statistics, one
    checkpoint of the live model for this epoch, one history record carrying
    both phases' losses; and every history sequence grows by exactly one
    entry, the accuracies being the ones just reported. *)
Theorem epoch_emits_in_order dls epoch L w L' w' :
  epoch_body dls epoch L w = Returned L' w' ->
  exists tl ta vl va name rec,
    io w' = io w ++ [PhaseComplete train tl ta; PhaseComplete val vl va;
                     Checkpoint epoch name (weights w') (optim w');
                     HistoryWritten rec] /\
    model_name rec = name /\ train_loss rec = tl /\ val_loss rec = vl /\
    train_loss_history (hist L') = train_loss_history (hist L) ++ [tl] /\
    train_acc_history (hist L') = train_acc_history (hist L) ++ [ta] /\
    val_loss_history (hist L') = val_loss_history (hist L) ++ [vl] /\
    val_acc_history (hist L') = val_acc_history (hist L) ++ [va] /\
    train_f1_score (hist L') = train_f1_score (hist L) ++ [train_f1 rec] /\
    val_f1_score (hist L') = val_f1_score (hist L) ++ [val_f1 rec] /\
    plot_epoch (hist L') = plot_epoch (hist L) ++ [epoch].
Proof.
  intros H. apply epoch_body_returned in H.
  destruct H as (L1 & tr & w1 & vl & w2 & Ht & Hv & Hp).
  apply run_phase_returned in Ht.
  destruct Ht as (r1 & l1 & a1 & acc1 & f1 & p1 & rc1 & cm1
                  & Hs1 & _ & _ & -> & ->).
  apply run_phase_returned in Hv.
  destruct Hv as (r2 & l2 & a2 & acc2 & f2 & p2 & rc2 & cm2
                  & Hs2 & _ & _ & -> & ->).
  apply persist_returned in Hp. destruct Hp as (name & _ & _ & ->).
  pose proof (phase_stats_world (dls train) train w) as [_ Hio1].
  rewrite Hs1 in Hio1. simpl in Hio1.
  pose proof (phase_stats_world (dls val) val w1) as [_ Hio2].
  rewrite Hs2 in Hio2. simpl in Hio2.
  exists l1, a1, l2, a2, name.
  eexists. split.
  { simpl. rewrite Hio2, Hio1, <- !app_assoc. reflexivity. }
  unfold promote. destruct (Qgtb a2 _); simpl; auto 12.
Qed.

(** ** The loss is taken against the arg-max of the one-hot labels *)

Lemma Qgtb_true a b : Qgtb a b = true -> (b < a)%Q.
Proof.
  unfold Qgtb. intros H. apply negb_true_iff in H.
  apply Qnot_le_lt. intros Hle. apply Qle_bool_iff in Hle. congruence.
Qed.

Lemma Qgtb_false a b : Qgtb a b = false -> (a <= b)%Q.
Proof.
  unfold Qgtb. intros H. apply negb_false_iff in H.
  now apply Qle_bool_iff.
Qed.

Lemma Qgtb_iff a b : Qgtb a b = true <-> (b < a)%Q.
Proof.
  split; [apply Qgtb_true|]. intros H.
  destruct (Qgtb a b) eqn:E; [reflexivity|].
  apply Qgtb_false in E. exfalso. exact (Qlt_not_le _ _ H E).
Qed.

Lemma argmax_from_spec rest : forall pre best_i best,
  nth_error pre best_i = Some best ->
  (forall j x, nth_error pre j = Some x ->
               (x <= best)%Q /\ (j < best_i -> (x < best)%Q)) ->
  first_argmax (pre ++ rest) (argmax_from best_i best (length pre) rest).
Proof.
  induction rest as [| x rest IH]; intros pre best_i best Hbest Hpre.
  - rewrite app_nil_r. exists best. auto.
  - assert (Hlt : best_i < length pre)
      by (apply nth_error_Some; congruence).
    simpl. replace (pre ++ x :: rest) with ((pre ++ [x]) ++ rest)
      by (now rewrite <- app_assoc).
    replace (S (length pre)) with (length (pre ++ [x]))
      by (rewrite length_app; simpl; lia).
    destruct (Qgtb x best) eqn:Hx.
    + apply Qgtb_true in Hx. apply (IH (pre ++ [x]) (length pre) x).
      * rewrite nth_error_app2 by lia. now rewrite Nat.sub_diag.
      * intros j y Hj.
        destruct (Nat.lt_ge_cases j (length pre)) as [Hjl | Hjl].
        -- rewrite nth_error_app1 in Hj by exact Hjl.
           destruct (Hpre j y Hj) as [Hle _].
           split; [apply Qlt_le_weak|]; intros; eapply Qle_lt_trans; eauto.
        -- rewrite nth_error_app2 in Hj by exact Hjl.
           destruct (j - length pre) as [| k] eqn:Hk.
           ++ simpl in Hj. inversion Hj; subst. split; [apply Qle_refl | lia].
           ++ simpl in Hj. destruct k; discriminate.
    + apply Qgtb_false in Hx. apply IH.
      * rewrite nth_error_app1 by exact Hlt. exact Hbest.
      * intros j y Hj.
        destruct (Nat.lt_ge_cases j (length pre)) as [Hjl | Hjl].
        -- rewrite nth_error_app1 in Hj by exact Hjl. now apply Hpre.
        -- rewrite nth_error_app2 in Hj by exact Hjl.
           destruct (j - length pre) as [| k] eqn:Hk.
           ++ simpl in Hj. inversion Hj; subst. split; [exact Hx | lia].
           ++ simpl in Hj. destruct k; discriminate.
Qed.

Lemma row_argmax_spec row t : row_argmax row = inr t -> first_argmax row t.
Proof.
  destruct row as [| x rest]; [discriminate|].
  intros H; inversion H; subst; clear H.
  apply (argmax_from_spec rest [x] 0 x); [reflexivity|].
  intros [| [| j]] y Hj; simpl in Hj; try discriminate.
  inversion Hj; subst. split; [apply Qle_refl | lia].
Qed.

Lemma torch_max_1_spec t : forall ks,
  torch_max_1 t = inr ks -> Forall2 first_argmax t ks.
Proof.
  induction t as [| row rows IH]; intros ks H; simpl in H.
  - inversion H; constructor.
  - destruct (row_argmax row) as [e | k] eqn:Hrow; [discriminate|].
    destruct (torch_max_1 rows) as [e | ks'] eqn:Hrows; [discriminate|].
    inversion H; subst. constructor; [now apply row_argmax_spec | now apply IH].
Qed.

(** C8: in either phase, a batch that is processed has its loss computed by
    the criterion on the model outputs and the indices [torch.max(labels, 1)[1]]
    (for every label row the index of its first maximal entry, which for a
    one-hot row is the class); that loss, times the batch size, is what is
    added to the running loss, and the very same indices are appended to the
    phase's ground-truth list. *)
Theorem loss_against_label_argmax p b r w r' w' :
  batch_step p b r w = Returned r' w' ->
  exists outputs targets loss,
    model_forward (training w) (weights w) (video b) = inr outputs /\
    torch_max_1 (action b) = inr targets /\
    Forall2 first_argmax (action b) targets /\
    criterion outputs targets = inr loss /\
    running_loss r'
      = (running_loss r + loss * Q_of_nat (size0 (video b)))%Q /\
    ground_truths r' = ground_truths r ++ targets.
Proof.
  intros H. apply batch_step_returned in H.
  destruct H as (outputs & targets & loss & preds & c
                 & Hf & Ht & Hc & _ & _ & -> & _).
  exists outputs, targets, loss.
  split; [exact Hf|]. split; [exact Ht|].
  split; [now apply torch_max_1_spec|]. split; [exact Hc|].
  split; reflexivity.
Qed.

(** ** The confusion matrix *)

Lemma count_pair_nil p r c : count_pair [] p r c = 0.
Proof. reflexivity. Qed.

Lemma count_pair_cons x t y p r c :
  count_pair (x :: t) (y :: p) r c
  = (if (x =? r) && (y =? c) then 1 else 0) + count_pair t p r c.
Proof.
  unfold count_pair. simpl. destruct ((x =? r) && (y =? c)); reflexivity.
Qed.

Lemma in_labels10 x : x < 10 -> in_labels labels10 x = true.
Proof. intros H. do 10 (destruct x as [| x]; [reflexivity|]). lia. Qed.

Lemma confusion_row_sum t : forall p r,
  length t = length p ->
  Forall (fun c => c < 10) p ->
  list_sum_nat (map (fun c => count_pair t p r c) labels10)
  = count_occ Nat.eq_dec t r.
Proof.
  induction t as [| x t IH]; intros p r Hlen Hp.
  - reflexivity.
  - destruct p as [| y p]; [discriminate|].
    inversion Hp as [| ? ? Hy Hp']; subst.
    specialize (IH p r (f_equal pred Hlen) Hp').
    unfold labels10 in *. cbn [map list_sum_nat fold_right] in *.
    rewrite !count_pair_cons. cbn [count_occ].
    destruct (Nat.eq_dec x r) as [-> | Hne].
    + rewrite Nat.eqb_refl. cbn [andb].
      do 10 (destruct y as [| y]; [cbn [Nat.eqb]; lia|]). lia.
    + apply Nat.eqb_neq in Hne. rewrite Hne. cbn [andb]. lia.
Qed.

Lemma list_sum_nat_zero l : list_sum_nat l = 0 -> l = repeat 0 (length l).
Proof.
  induction l as [| x l IH]; [reflexivity|].
  simpl. intros H. assert (x = 0) by lia. subst x.
  rewrite <- IH by lia. reflexivity.
Qed.

(** C7: for prediction and ground-truth sequences of equal length over the
    classes 0..9, [confusion_matrix(truth, pred, labels=[0..9])] is a 10 x 10
    matrix whose entry (r, c) counts the positions with ground truth [r] and
    prediction [c]; the sum of row [r] is the number of occurrences of [r] in
    the ground truth, and a class that does not occur has an all-zero row. *)
Theorem confusion_matrix_rows_count_truth preds truths :
  length preds = length truths ->
  Forall (fun c => c < 10) preds ->
  Forall (fun c => c < 10) truths ->
  exists m,
    confusion_matrix truths preds labels10 = inr m /\
    length m = 10 /\
    Forall (fun row => length row = 10) m /\
    (forall r c, r < 10 -> c < 10 ->
                 nth c (nth r m []) 0 = count_pair truths preds r c) /\
    (forall r, r < 10 ->
               list_sum_nat (nth r m []) = count_occ Nat.eq_dec truths r) /\
    (forall r, r < 10 -> count_occ Nat.eq_dec truths r = 0 ->
               nth r m [] = repeat 0 10).
Proof.
  intros Hlen Hp Ht.
  assert (Hrow : forall r, r < 10 ->
            nth r (map (fun r => map (fun c => count_pair truths preds r c)
                                     labels10) labels10) []
            = map (fun c => count_pair truths preds r c) labels10).
  { intros r Hr. do 10 (destruct r as [| r]; [reflexivity|]). lia. }
  eexists. split.
  { unfold confusion_matrix.
    rewrite <- Hlen, Nat.eqb_refl. cbn [negb].
    assert (Hin : forall l, Forall (fun c => c < 10) l ->
                            forallb (in_labels labels10) l = true).
    { intros l Hl. apply forallb_forall. intros x Hx.
      apply in_labels10. rewrite Forall_forall in Hl. now apply Hl. }
    rewrite (Hin _ Ht), (Hin _ Hp). reflexivity. }
  split; [reflexivity|]. split.
  { repeat constructor. }
  split; [| split].
  - intros r c Hr Hc. rewrite (Hrow r Hr).
    do 10 (destruct c as [| c]; [reflexivity|]). lia.
  - intros r Hr. rewrite (Hrow r Hr). now apply confusion_row_sum.
  - intros r Hr Hz. rewrite (Hrow r Hr).
    assert (Hs : list_sum_nat (map (fun c => count_pair truths preds r c)
                                   labels10) = 0)
      by (rewrite confusion_row_sum by auto; exact Hz).
    apply list_sum_nat_zero in Hs. rewrite Hs, length_map. reflexivity.
Qed.

(** ** The epoch accuracy *)

Lemma Q_of_nat_pos n : 0 < n -> (0 < Q_of_nat n)%Q.
Proof.
  intros H. unfold Q_of_nat. change 0%Q with (inject_Z 0).
  rewrite <- Zlt_Qlt. lia.
Qed.

Lemma Q_of_nat_lt a b : a < b -> (Q_of_nat a < Q_of_nat b)%Q.
Proof. intros H. unfold Q_of_nat. rewrite <- Zlt_Qlt. lia. Qed.

(** A positive count divided by a larger length is a smaller fraction. *)
Lemma Qdiv_nat_lt c p n :
  0 < c -> 0 < p -> p < n ->
  (Q_of_nat c / Q_of_nat n < Q_of_nat c / Q_of_nat p)%Q.
Proof.
  intros Hc Hp Hn.
  pose proof (Q_of_nat_pos c Hc) as Hc'.
  pose proof (Q_of_nat_pos p Hp) as Hp'.
  assert (Hn' : (0 < Q_of_nat n)%Q) by (apply Q_of_nat_pos; lia).
  pose proof (Q_of_nat_lt p n Hn) as Hpn.
  apply Qlt_shift_div_r; [exact Hn'|].
  assert (E : (Q_of_nat c / Q_of_nat p * Q_of_nat n
               == Q_of_nat c * Q_of_nat n / Q_of_nat p)%Q).
  { field. intros Hz. rewrite Hz in Hp'. apply (Qlt_irrefl 0). exact Hp'. }
  rewrite E. apply Qlt_shift_div_l; [exact Hp'|].
  apply Qmult_lt_l; assumption.
Qed.

Lemma count_eq_app a : forall b p q,
  length a = length b ->
  count_eq (a ++ p) (b ++ q) = count_eq a b + count_eq p q.
Proof.
  induction a as [| x a IH]; intros [| y b] p q Hlen; try discriminate.
  - reflexivity.
  - simpl. rewrite IH by (simpl in Hlen; lia). lia.
Qed.

Lemma count_eq_le a : forall b, count_eq a b <= length a.
Proof.
  induction a as [| x a IH]; intros [| y b]; simpl; try lia.
  specialize (IH b). destruct (x =? y); lia.
Qed.

Lemma Forall_firstn {A} (P : A -> Prop) n : forall l,
  Forall P l -> Forall P (firstn n l).
Proof.
  induction n as [| n IH]; intros l Hl; [constructor|].
  destruct Hl as [| x l Hx Hl]; simpl; constructor; auto.
Qed.

Lemma torch_max_1_length t : forall ks,
  torch_max_1 t = inr ks -> length ks = length t.
Proof.
  intros ks H. apply torch_max_1_spec in H.
  symmetry. eapply Forall2_length; eauto.
Qed.

Lemma tensor_eq_sum_aligned preds targets c :
  length preds = length targets ->
  tensor_eq_sum preds targets = inr c -> c = count_eq preds targets.
Proof.
  unfold tensor_eq_sum. intros ->. rewrite Nat.eqb_refl. congruence.
Qed.

(** With aligned shapes the running count is the number of positions at which
    the recorded predictions and ground truths agree. *)
Lemma batch_iter_corrects p bs : forall r w r' w',
  (forall m s x out, model_forward m s x = inr out -> length out = size0 x) ->
  Forall (fun b => length (action b) = size0 (video b)) bs ->
  length (pred_classes r) = length (ground_truths r) ->
  counter_value (running_corrects r)
    = count_eq (pred_classes r) (ground_truths r) ->
  batch_iter p bs r w = Returned r' w' ->
  length (pred_classes r') = length (ground_truths r') /\
  counter_value (running_corrects r')
    = count_eq (pred_classes r') (ground_truths r').
Proof.
  induction bs as [| b rest IH]; intros r w r' w' Hfwd Hbs Hlen Hcnt H.
  - inversion H; subst. auto.
  - rewrite batch_iter_cons in H.
    destruct (batch_step p b r w) as [r1 w1 | e w1] eqn:Hstep; [| discriminate].
    inversion Hbs as [| ? ? Hb Hrest]; subst.
    apply batch_step_returned in Hstep.
    destruct Hstep as (outputs & targets & loss & preds & c
                       & Hf & Ht & _ & Hp & Hs & -> & _).
    apply torch_max_1_length in Ht, Hp. apply Hfwd in Hf.
    assert (Hal : length preds = length targets) by congruence.
    apply (tensor_eq_sum_aligned _ _ _ Hal) in Hs. subst c.
    refine (IH _ w1 r' w' Hfwd Hrest _ _ H); simpl.
    + rewrite !length_app. lia.
    + rewrite count_eq_app by exact Hlen. lia.
Qed.

(** C10: the accuracy a phase reports, appends to its accuracy history and (in
    the val phase) offers for promotion is the running number of correct
    predictions divided by the dataset length.  When fewer samples were
    processed than the dataset holds and at least one prediction was right,
    it is strictly below the fraction of right predictions among the
    processed samples; with aligned tensor shapes that fraction is the
    accuracy of the metrics calculator on the recorded lists, so the two
    accuracies differ. *)
Theorem epoch_acc_over_dataset_length dls epoch p L w L' pv w' :
  run_phase dls epoch p L w = Returned (L', pv) w' ->
  exists r l a,
    phase_stats (dls p) p w = Returned (r, l, a) w' /\
    a = (Q_of_nat (counter_value (running_corrects r))
         / Q_of_nat (dataset_len (dls p)))%Q /\
    match p with
    | train => train_acc_history (hist L') = train_acc_history (hist L) ++ [a]
    | val =>
        val_acc_history (hist L') = val_acc_history (hist L) ++ [a] /\
        best_acc L' = if Qgtb a (best_acc L) then a else best_acc L
    end /\
    (0 < counter_value (running_corrects r) ->
     0 < length (ground_truths r) ->
     length (ground_truths r) < dataset_len (dls p) ->
     (a < Q_of_nat (counter_value (running_corrects r))
          / Q_of_nat (length (ground_truths r)))%Q) /\
    (shapes_agree (dls p) ->
     counter_value (running_corrects r)
       = count_eq (pred_classes r) (ground_truths r) /\
     (0 < counter_value (running_corrects r) ->
      length (ground_truths r) < dataset_len (dls p) ->
      (a < metrics_accuracy (pred_classes r) (ground_truths r))%Q)).
Proof.
  intros H. apply run_phase_returned in H.
  destruct H as (r & l & a & acc & f1 & prec & rc & cm
                 & Hst & _ & _ & _ & HL).
  exists r, l, a. split; [exact Hst|].
  apply phase_stats_returned in Hst.
  destruct Hst as (w1 & Hloop & _ & Hacc & _).
  assert (Ha : a = (Q_of_nat (counter_value (running_corrects r))
                    / Q_of_nat (dataset_len (dls p)))%Q).
  { unfold double_div in Hacc.
    destruct (running_corrects r); [discriminate|].
    inversion Hacc; reflexivity. }
  split; [exact Ha|]. split.
  { subst L'. destruct p; [reflexivity|].
    unfold promote. simpl. destruct (Qgtb a (best_acc L)); auto. }
  split.
  { intros Hc Hp Hn. rewrite Ha. now apply Qdiv_nat_lt. }
  intros [Hfwd Hbs].
  rewrite batch_loop_from_start in Hloop.
  assert (Hinv : length (pred_classes r) = length (ground_truths r) /\
                 counter_value (running_corrects r)
                   = count_eq (pred_classes r) (ground_truths r)).
  { refine (batch_iter_corrects p (firstn 10 (batches (dls p))) init_running
              _ r w1 Hfwd _ eq_refl eq_refl Hloop).
    now apply Forall_firstn. }
  destruct Hinv as [Hlen Hcnt]. split; [exact Hcnt|].
  intros Hc Hn. unfold metrics_accuracy. rewrite Hlen, <- Hcnt, Ha.
  apply Qdiv_nat_lt; [exact Hc | | exact Hn].
  pose proof (count_eq_le (pred_classes r) (ground_truths r)). lia.
Qed.

(** ** Tracking the best model *)

Lemma checkpoints_app evs : forall evs',
  checkpoints (evs ++ evs') = checkpoints evs ++ checkpoints evs'.
Proof.
  induction evs as [| ev evs IH]; intros evs'; [reflexivity|].
  destruct ev; simpl; now rewrite IH.
Qed.

Lemma history_file_app evs : forall evs',
  history_file (evs ++ evs') = history_file evs ++ history_file evs'.
Proof.
  induction evs as [| ev evs IH]; intros evs'; [reflexivity|].
  destruct ev; simpl; now rewrite IH.
Qed.

(** What a completed epoch does to the variables and files the promotion rule
    is about. *)
Lemma epoch_body_best dls epoch L w L' w' :
  epoch_body dls epoch L w = Returned L' w' ->
  exists a rec,
    val_acc_history (hist L') = val_acc_history (hist L) ++ [a] /\
    plot_epoch (hist L') = plot_epoch (hist L) ++ [epoch] /\
    best_acc L' = (if Qgtb a (best_acc L) then a else best_acc L) /\
    best_model_wts L'
      = (if Qgtb a (best_acc L) then weights w' else best_model_wts L) /\
    checkpoints (io w') = checkpoints (io w) ++ [(epoch, weights w')] /\
    history_file (io w') = history_file (io w) ++ [rec].
Proof.
  intros H. apply epoch_body_returned in H.
  destruct H as (L1 & tr & w1 & vl & w2 & Ht & Hv & Hp).
  apply run_phase_returned in Ht.
  destruct Ht as (r1 & l1 & a1 & acc1 & f1 & p1 & rc1 & cm1
                  & Hs1 & _ & _ & -> & ->).
  apply run_phase_returned in Hv.
  destruct Hv as (r2 & l2 & a2 & acc2 & f2 & p2 & rc2 & cm2
                  & Hs2 & _ & _ & -> & ->).
  apply persist_returned in Hp. destruct Hp as (name & _ & _ & ->).
  pose proof (phase_stats_world (dls train) train w) as [_ Hio1].
  rewrite Hs1 in Hio1. simpl in Hio1.
  pose proof (phase_stats_world (dls val) val w1) as [_ Hio2].
  rewrite Hs2 in Hio2. simpl in Hio2.
  exists a2. eexists.
  unfold promote; simpl.
  rewrite Hio2, Hio1, !checkpoints_app, !history_file_app. simpl.
  rewrite !app_nil_r.
  destruct (Qgtb a2 (best_acc L)); simpl; auto 8.
Qed.

Lemma epoch_keeps_running_max dls epoch L w L' w' :
  best_acc_is_running_max L ->
  epoch_body dls epoch L w = Returned L' w' ->
  best_acc_is_running_max L'.
Proof.
  intros (Hpos & Hmax & Hin) H. apply epoch_body_best in H.
  destruct H as (a & rec & Hacc & _ & Hb & _).
  unfold best_acc_is_running_max. rewrite Hacc, Hb.
  destruct (Qgtb a (best_acc L)) eqn:Hg.
  - apply Qgtb_true in Hg. split; [| split].
    + apply Qlt_le_weak. eapply Qle_lt_trans; eauto.
    + intros b Hbin. apply in_app_or in Hbin. destruct Hbin as [Hbin | [<- | []]].
      * apply Qlt_le_weak. eapply Qle_lt_trans; [apply Hmax|]; eauto.
      * apply Qle_refl.
    + right. apply in_or_app. right. now left.
  - apply Qgtb_false in Hg. split; [exact Hpos|]. split.
    + intros b Hbin. apply in_app_or in Hbin. destruct Hbin as [Hbin | [<- | []]];
        auto.
    + destruct Hin as [Hz | Hin]; [now left|]. right. apply in_or_app. now left.
Qed.

Lemma epochs_keep_running_max dls es : forall L w L' w',
  best_acc_is_running_max L ->
  epochs_loop dls es L w = Returned L' w' ->
  best_acc_is_running_max L'.
Proof.
  induction es as [| epoch rest IH]; intros L w L' w' Hinv H.
  - inversion H; subst; exact Hinv.
  - rewrite epochs_loop_cons in H.
    destruct (epoch_body dls epoch L w) as [L1 w1 | e w1] eqn:He;
      [| discriminate].
    eapply IH; [| exact H]. eapply epoch_keeps_running_max; eauto.
Qed.

Lemma init_locals_running_max s : best_acc_is_running_max (init_locals s).
Proof.
  split; [apply Qle_refl|]. split; [intros b []|]. now left.
Qed.

(** C2, with the initial best accuracy taken into account: at every epoch of a
    run, the test of line 162 succeeds exactly when the epoch's validation
    accuracy is positive and strictly above every earlier epoch's; when it
    succeeds the best accuracy and the snapshot become this epoch's, otherwise
    (in particular on a tie with the current best) both stay as they were. *)
Theorem snapshot_updates_iff_strictly_better dls done epoch s0 w0 L w L' w' :
  epochs_loop dls done (init_locals s0) w0 = Returned L w ->
  epoch_body dls epoch L w = Returned L' w' ->
  exists a,
    val_acc_history (hist L') = val_acc_history (hist L) ++ [a] /\
    (Qgtb a (best_acc L) = true <->
       (0 < a)%Q /\
       forall b, In b (val_acc_history (hist L)) -> (b < a)%Q) /\
    (Qgtb a (best_acc L) = true ->
       best_acc L' = a /\ best_model_wts L' = weights w') /\
    (Qgtb a (best_acc L) = false ->
       best_acc L' = best_acc L /\ best_model_wts L' = best_model_wts L) /\
    ((a == best_acc L)%Q ->
       best_acc L' = best_acc L /\ best_model_wts L' = best_model_wts L).
Proof.
  intros Hloop Hbody.
  pose proof (epochs_keep_running_max _ _ _ _ _ _
                (init_locals_running_max s0) Hloop) as (Hpos & Hmax & Hin).
  apply epoch_body_best in Hbody.
  destruct Hbody as (a & rec & Hacc & _ & Hb & Hw & _).
  exists a. split; [exact Hacc|]. split; [| split; [| split]].
  - rewrite Qgtb_iff. split.
    + intros Hlt. split; [eapply Qle_lt_trans; eauto|].
      intros b Hbin. eapply Qle_lt_trans; [apply Hmax|]; eauto.
    + intros [Ha Hall]. destruct Hin as [-> | Hin]; [exact Ha | now apply Hall].
  - intros Hg. rewrite Hg in Hb, Hw. auto.
  - intros Hg. rewrite Hg in Hb, Hw. auto.
  - intros Heq.
    assert (Hg : Qgtb a (best_acc L) = false).
    { destruct (Qgtb a (best_acc L)) eqn:Hg; [| reflexivity].
      apply Qgtb_true in Hg. rewrite Heq in Hg.
      exfalso. exact (Qlt_irrefl _ Hg). }
    rewrite Hg in Hb, Hw. auto.
Qed.

Lemma init_locals_first_max s : best_is_first_max s [] (init_locals s).
Proof.
  split; [reflexivity|]. left. repeat split. intros b [].
Qed.

Lemma nth_error_snoc {A} (l : list A) (x : A) j y :
  nth_error (l ++ [x]) j = Some y ->
  (j < length l /\ nth_error l j = Some y) \/ (j = length l /\ y = x).
Proof.
  intros H. destruct (Nat.lt_ge_cases j (length l)) as [Hlt | Hge].
  - left. rewrite nth_error_app1 in H by exact Hlt. auto.
  - right. rewrite nth_error_app2 in H by exact Hge.
    destruct (j - length l) as [| k] eqn:Hk; simpl in H.
    + inversion H. split; [lia | reflexivity].
    + destruct k; discriminate.
Qed.

Lemma epoch_keeps_first_max dls epoch init cps L w L' w' :
  best_is_first_max init cps L ->
  epoch_body dls epoch L w = Returned L' w' ->
  best_is_first_max init (cps ++ [(epoch, weights w')]) L'.
Proof.
  intros [Hlen Hcase] H. apply epoch_body_best in H.
  destruct H as (a & rec & Hacc & _ & Hb & Hw & _).
  assert (Hpos : (0 <= best_acc L)%Q).
  { destruct Hcase as [(-> & _) | (k & e & _ & Hp & _)];
      [apply Qle_refl | now apply Qlt_le_weak]. }
  unfold best_is_first_max. rewrite Hacc, Hb, Hw, !length_app. simpl.
  split; [lia|].
  destruct (Qgtb a (best_acc L)) eqn:Hg.
  - apply Qgtb_true in Hg. right. exists (length cps), epoch.
    split; [rewrite <- Hlen, nth_error_app2, Nat.sub_diag by lia; reflexivity|].
    split; [eapply Qle_lt_trans; eauto|]. split.
    + intros j b Hj. apply nth_error_snoc in Hj.
      destruct Hj as [[Hjl Hj] | [-> ->]].
      * assert (Hle : (b <= best_acc L)%Q).
        { destruct Hcase as [(Hz & _ & Hall) | (k & e & _ & _ & Hall & _)].
          - rewrite Hz. apply Hall. eapply nth_error_In; eauto.
          - now apply (Hall j b). }
        split; [apply Qlt_le_weak|]; intros; eapply Qle_lt_trans; eauto.
      * split; [apply Qle_refl | lia].
    + rewrite nth_error_app2, Nat.sub_diag by lia. reflexivity.
  - apply Qgtb_false in Hg.
    destruct Hcase as [(Hz & Hi & Hall) | (k & e & Hk & Hp & Hall & Hc)].
    + left. split; [exact Hz|]. split; [exact Hi|].
      intros b Hbin. apply in_app_or in Hbin.
      destruct Hbin as [Hbin | [<- | []]]; [now apply Hall|].
      now rewrite Hz in Hg.
    + right. exists k, e.
      assert (Hkl : k < length (val_acc_history (hist L)))
        by (apply nth_error_Some; congruence).
      split; [rewrite nth_error_app1 by exact Hkl; exact Hk|].
      split; [exact Hp|]. split.
      * intros j b Hj. apply nth_error_snoc in Hj.
        destruct Hj as [[Hjl Hj] | [-> ->]]; [now apply Hall|].
        split; [exact Hg | lia].
      * rewrite nth_error_app1 by lia. exact Hc.
Qed.

Lemma epochs_keep_first_max dls init es : forall cps L w L' w',
  best_is_first_max init cps L ->
  epochs_loop dls es L w = Returned L' w' ->
  exists cps',
    map fst cps' = es /\
    checkpoints (io w') = checkpoints (io w) ++ cps' /\
    best_is_first_max init (cps ++ cps') L' /\
    plot_epoch (hist L') = plot_epoch (hist L) ++ es /\
    length (history_file (io w'))
      = length (history_file (io w)) + length es.
Proof.
  induction es as [| epoch rest IH]; intros cps L w L' w' Hinv H.
  - inversion H; subst. exists []. rewrite !app_nil_r. simpl. auto with arith.
  - rewrite epochs_loop_cons in H.
    destruct (epoch_body dls epoch L w) as [L1 w1 | e w1] eqn:He;
      [| discriminate].
    pose proof (epoch_keeps_first_max _ _ _ _ _ _ _ _ Hinv He) as Hinv1.
    apply epoch_body_best in He.
    destruct He as (a & rec & _ & Hpl & _ & _ & Hcp & Hh).
    destruct (IH _ _ _ _ _ Hinv1 H) as (cps' & Hfst & Hcps & Hinv' & Hpl' & Hh').
    exists ((epoch, weights w1) :: cps').
    split; [simpl; now rewrite Hfst|].
    split; [rewrite Hcps, Hcp, <- app_assoc; reflexivity|].
    split; [now rewrite <- app_assoc in Hinv'|].
    split; [rewrite Hpl', Hpl, <- app_assoc; reflexivity|].
    rewrite Hh', Hh, length_app. simpl. lia.
Qed.


(** ** Exceptions *)













End Verification.

(** * The theorems at work on the concrete collaborators *)

Lemma train_model_zero_epochs_witness :
  @init_session_history toy = inr tt /\
  train_model (T := toy) toy_loaders 1 1 (toy_start 5)
    = Returned empty_histories
        (with_io (io (toy_start 5) ++ [SessionStarted]) (toy_start 5)) /\
  weights (final_world (train_model (T := toy) toy_loaders 1 1 (toy_start 5)))
    = weights (toy_start 5).
Proof.
  split; [reflexivity|].
  apply (train_model_zero_epochs (T := toy) toy_loaders 1 (toy_start 5)).
  reflexivity.
Defined.



Lemma snapshot_updates_iff_strictly_better_witness :
  epochs_loop (T := toy) toy_loaders [1%Z] (init_locals (T := toy) 0) (toy_start 0)
    = Returned toy_epoch1_locals toy_epoch1_world /\
  epoch_body (T := toy) toy_loaders 2 toy_epoch1_locals toy_epoch1_world
    = Returned toy_epoch2_locals toy_epoch2_world /\
  exists a,
    val_acc_history (hist toy_epoch2_locals)
      = val_acc_history (hist toy_epoch1_locals) ++ [a] /\
    (Qgtb a (best_acc toy_epoch1_locals) = true <->
       (0 < a)%Q /\
       forall b, In b (val_acc_history (hist toy_epoch1_locals)) -> (b < a)%Q) /\
    (Qgtb a (best_acc toy_epoch1_locals) = true ->
       best_acc toy_epoch2_locals = a /\
       best_model_wts toy_epoch2_locals = weights toy_epoch2_world) /\
    (Qgtb a (best_acc toy_epoch1_locals) = false ->
       best_acc toy_epoch2_locals = best_acc toy_epoch1_locals /\
       best_model_wts toy_epoch2_locals = best_model_wts toy_epoch1_locals) /\
    ((a == best_acc toy_epoch1_locals)%Q ->
       best_acc toy_epoch2_locals = best_acc toy_epoch1_locals /\
       best_model_wts toy_epoch2_locals = best_model_wts toy_epoch1_locals).
Proof.
  split; [vm_compute; reflexivity|].
  split; [vm_compute; reflexivity|].
  apply (snapshot_updates_iff_strictly_better (T := toy) toy_loaders
           [1%Z] 2 0 (toy_start 0) toy_epoch1_locals toy_epoch1_world
           toy_epoch2_locals toy_epoch2_world).
  - vm_compute. reflexivity.
  - vm_compute. reflexivity.
Defined.

(** A first epoch with validation accuracy zero: it exceeds every earlier
    accuracy, there being none, yet the snapshot is not replaced. *)
Lemma first_epoch_with_zero_accuracy_is_not_promoted :
  ~ (forall L' w' a,
        epoch_body (T := toy) toy_loaders_hard 1 (init_locals (T := toy) 0) (toy_start 0)
          = Returned L' w' ->
        val_acc_history (hist L')
          = val_acc_history (hist (init_locals (T := toy) 0)) ++ [a] ->
        ((forall b, In b (val_acc_history (hist (init_locals (T := toy) 0))) ->
                    (b < a)%Q)
         <-> best_acc L' = a /\ best_model_wts L' = weights w')).
Proof.
  intros H.
  destruct (H toy_hard_epoch1_locals toy_hard_epoch1_world (0 # 2)%Q)
    as [Hupd _]; [vm_compute; reflexivity | vm_compute; reflexivity |].
  destruct Hupd as [_ Hw]; [intros b []|].
  vm_compute in Hw. discriminate.
Qed.

Lemma val_phase_keeps_parameters_witness :
  weights (final_world (run_phase (T := toy) toy_loaders 1 val
                          (init_locals (T := toy) 0) (toy_start 3)))
    = weights (toy_start 3) /\
  exists r',
    batch_step (T := toy) val toy_batch_31 init_running
      (toy_start 3) = Returned r' (toy_start 3) /\
    exists outputs preds targets c,
      model_forward (Collaborators := toy) (training (toy_start 3))
        (weights (toy_start 3)) (video toy_batch_31)
        = inr outputs /\
      torch_max_1 outputs = inr preds /\
      torch_max_1 (action toy_batch_31) = inr targets /\
      tensor_eq_sum preds targets = inr c /\
      pred_classes r' = pred_classes init_running ++ preds /\
      running_corrects r'
        = counter_add (running_corrects init_running) c.
Proof.
  pose proof (val_phase_keeps_parameters (T := toy) toy_loaders 1
                (init_locals (T := toy) 0) (toy_start 3)) as (Hm & Hw & Hv & _).
  split; [exact (proj1 Hm)|].
  eexists. split; [vm_compute; reflexivity|].
  eapply Hv. vm_compute. reflexivity.
Defined.

Lemma epoch_emits_in_order_witness :
  epoch_body (T := toy) toy_loaders 1 (init_locals (T := toy) 0) (toy_start 0)
    = Returned toy_epoch1_locals toy_epoch1_world /\
  length (io toy_epoch1_world) = 4 /\
  exists tl ta vl va name rec,
    io toy_epoch1_world
      = io (toy_start 0)
        ++ [PhaseComplete train tl ta; PhaseComplete val vl va;
            Checkpoint 1 name (weights toy_epoch1_world)
              (optim toy_epoch1_world);
            HistoryWritten rec] /\
    model_name rec = name /\ train_loss rec = tl /\ val_loss rec = vl /\
    train_loss_history (hist toy_epoch1_locals)
      = train_loss_history (hist (init_locals (T := toy) 0)) ++ [tl] /\
    train_acc_history (hist toy_epoch1_locals)
      = train_acc_history (hist (init_locals (T := toy) 0)) ++ [ta] /\
    val_loss_history (hist toy_epoch1_locals)
      = val_loss_history (hist (init_locals (T := toy) 0)) ++ [vl] /\
    val_acc_history (hist toy_epoch1_locals)
      = val_acc_history (hist (init_locals (T := toy) 0)) ++ [va] /\
    train_f1_score (hist toy_epoch1_locals)
      = train_f1_score (hist (init_locals (T := toy) 0)) ++ [train_f1 rec] /\
    val_f1_score (hist toy_epoch1_locals)
      = val_f1_score (hist (init_locals (T := toy) 0)) ++ [val_f1 rec] /\
    plot_epoch (hist toy_epoch1_locals)
      = plot_epoch (hist (init_locals (T := toy) 0)) ++ [1%Z].
Proof.
  split; [vm_compute; reflexivity|].
  split; [vm_compute; reflexivity|].
  apply (epoch_emits_in_order (T := toy) toy_loaders 1
           (init_locals (T := toy) 0) (toy_start 0)
           toy_epoch1_locals toy_epoch1_world).
  vm_compute. reflexivity.
Defined.

Lemma batch_loop_caps_at_ten_witness :
  length (batches (toy_loaders_long val)) = 12 /\
  batch_loop (T := toy) val (batches (toy_loaders_long val)) init_running
    (toy_start 1) = Returned toy_long_running (toy_start 1) /\
  (i toy_long_running = Nat.min 10 (length (batches (toy_loaders_long val))) /\
   i toy_long_running <= 10) /\
  length (pred_classes toy_long_running) = 10 /\
  run_phase (T := toy) toy_loaders_long 1 val (init_locals (T := toy) 0)
    (toy_start 1)
  = run_phase (fun q => first_ten (toy_loaders_long q)) 1 val
      (init_locals (T := toy) 0) (toy_start 1).
Proof.
  split; [vm_compute; reflexivity|].
  destruct (batch_loop_caps_at_ten (T := toy) toy_loaders_long 1 val
              (init_locals (T := toy) 0) (toy_start 1)) as (_ & Hcount & Hcut).
  assert (Hrun : batch_loop (T := toy) val (batches (toy_loaders_long val))
                   init_running (toy_start 1)
                 = Returned toy_long_running (toy_start 1))
    by (vm_compute; reflexivity).
  split; [exact Hrun|].
  split; [exact (Hcount _ _ Hrun)|].
  split; [vm_compute; reflexivity | exact Hcut].
Defined.

Lemma confusion_matrix_rows_count_truth_witness :
  exists m,
    confusion_matrix [0; 1; 2; 2] [0; 1; 1; 2] labels10 = inr m /\
    nth 1 (nth 1 m []) 0 = 1 /\
    nth 1 (nth 2 m []) 0 = 1 /\
    nth 2 (nth 2 m []) 0 = 1 /\
    nth 0 (nth 0 m []) 0 = 1 /\
    list_sum_nat (nth 2 m []) = 2 /\
    nth 7 m [] = repeat 0 10.
Proof.
  destruct (confusion_matrix_rows_count_truth [0; 1; 1; 2] [0; 1; 2; 2])
    as (m & Hm & _ & _ & Hentry & Hsum & Hzero).
  - reflexivity.
  - repeat constructor.
  - repeat constructor.
  - exists m. split; [exact Hm|].
    rewrite !Hentry by lia.
    rewrite (Hsum 2) by lia.
    rewrite (Hzero 7) by (try lia; reflexivity).
    repeat split; reflexivity.
Defined.

Lemma loss_against_label_argmax_witness :
  exists r' w',
    batch_step (T := toy) train toy_batch_47 init_running
      (toy_start 4) = Returned r' w' /\
    exists outputs targets loss,
      model_forward (Collaborators := toy) (training (toy_start 4))
        (weights (toy_start 4)) (video toy_batch_47)
        = inr outputs /\
      torch_max_1 (action toy_batch_47) = inr targets /\
      Forall2 first_argmax (action toy_batch_47) targets /\
      criterion (Collaborators := toy) outputs targets = inr loss /\
      running_loss r'
        = (running_loss init_running
           + loss * Q_of_nat (size0 (video toy_batch_47)))%Q /\
      ground_truths r' = ground_truths init_running ++ targets.
Proof.
  do 2 eexists. split; [vm_compute; reflexivity|].
  eapply (loss_against_label_argmax (T := toy) train
            toy_batch_47 init_running (toy_start 4)).
  vm_compute. reflexivity.
Defined.


Lemma epoch_acc_over_dataset_length_witness :
  run_phase (T := toy) toy_loaders_long 1 val (init_locals (T := toy) 0)
    (toy_start 1) = Returned (toy_long_locals, toy_long_vars) toy_long_world /\
  val_acc_history (hist toy_long_locals) = [10 # 12]%Q /\
  shapes_agree (toy_loaders_long val) /\
  exists r l a,
    phase_stats (T := toy) (toy_loaders_long val) val (toy_start 1)
      = Returned (r, l, a) toy_long_world /\
    a = (Q_of_nat (counter_value (running_corrects r))
         / Q_of_nat (dataset_len (toy_loaders_long val)))%Q /\
    (a < metrics_accuracy (pred_classes r) (ground_truths r))%Q.
Proof.
  split; [vm_compute; reflexivity|].
  split; [vm_compute; reflexivity|].
  assert (Hshapes : shapes_agree (toy_loaders_long val)).
  { split.
    - intros m s x out H. simpl in H. inversion H. apply length_map.
    - repeat constructor. }
  split; [exact Hshapes|].
  destruct (epoch_acc_over_dataset_length (T := toy) toy_loaders_long 1 val
              (init_locals (T := toy) 0) (toy_start 1)
              toy_long_locals toy_long_vars toy_long_world)
    as (r & l & a & Hst & Ha & _ & _ & Hshape); [vm_compute; reflexivity|].
  exists r, l, a. split; [exact Hst|]. split; [exact Ha|].
  destruct (Hshape Hshapes) as [_ Hlt].
  vm_compute in Hst. inversion Hst; subst r l a.
  apply Hlt; vm_compute; lia.
Defined.

(** * Further properties of [train_model] *)

Section MoreProperties.

Context {T : Collaborators}.

(** Everything a completed epoch did, stage by stage. *)
Lemma epoch_body_anatomy dls epoch L w L' w' :
  epoch_body dls epoch L w = Returned L' w' ->
  exists r1 l1 a1 acc1 f1 p1 rc1 cm1 w1 r2 l2 a2 acc2 f2 p2 rc2 cm2 w2 name,
    phase_stats (dls train) train w = Returned (r1, l1, a1) w1 /\
    get_acc_f1_precision_recall (pred_classes r1) (ground_truths r1)
      = inr (acc1, f1, p1, rc1) /\
    confusion_matrix (ground_truths r1) (pred_classes r1) labels10 = inr cm1 /\
    phase_stats (dls val) val w1 = Returned (r2, l2, a2) w2 /\
    get_acc_f1_precision_recall (pred_classes r2) (ground_truths r2)
      = inr (acc2, f2, p2, rc2) /\
    confusion_matrix (ground_truths r2) (pred_classes r2) labels10 = inr cm2 /\
    save_weights (weights w2) epoch (optim w2) = inr name /\
    w' = with_io
           (io w2 ++ [Checkpoint epoch name (weights w2) (optim w2);
                      HistoryWritten
                        (history_record name
                           {| pv_loss := l1; pv_accuracy := acc1; pv_f1 := f1;
                              pv_precision := p1; pv_recall := rc1;
                              pv_confusion_matrix := cm1 |}
                           {| pv_loss := l2; pv_accuracy := acc2; pv_f1 := f2;
                              pv_precision := p2; pv_recall := rc2;
                              pv_confusion_matrix := cm2 |})]) w2 /\
    L' = promote a2 (weights w2)
           (with_hist L
              (record_val_f1
                 (record_val
                    (record_train_f1 (record_train (hist L) a1 l1) f1 epoch)
                    a2 l2) f2)).
Proof.
  intros H. apply epoch_body_returned in H.
  destruct H as (L1 & tr & w1 & vl & w2 & Ht & Hv & Hp).
  apply run_phase_returned in Ht.
  destruct Ht as (r1 & l1 & a1 & acc1 & f1 & p1 & rc1 & cm1
                  & Hs1 & Hm1 & Hc1 & -> & ->).
  apply run_phase_returned in Hv.
  destruct Hv as (r2 & l2 & a2 & acc2 & f2 & p2 & rc2 & cm2
                  & Hs2 & Hm2 & Hc2 & -> & ->).
  apply persist_returned in Hp. destruct Hp as (name & Hsave & _ & ->).
  exists r1, l1, a1, acc1, f1, p1, rc1, cm1, w1.
  exists r2, l2, a2, acc2, f2, p2, rc2, cm2, w2, name.
  repeat (split; [assumption|]). split; reflexivity.
Qed.

Lemma phase_stats_output dl p w r l a w1 :
  phase_stats dl p w = Returned (r, l, a) w1 ->
  io w1 = io w ++ [PhaseComplete p l a] /\ training w1 = Phase_eqb p train.
Proof.
  intros H. pose proof (phase_stats_world dl p w) as [Htr Hio].
  rewrite H in Htr, Hio. simpl in Htr, Hio. auto.
Qed.

Lemma last_checkpoint_app evs : forall evs',
  last_checkpoint (evs ++ evs') =
  match last_checkpoint evs' with
  | Some c => Some c
  | None => last_checkpoint evs
  end.
Proof.
  induction evs as [| ev evs IH]; intros evs'; simpl.
  - destruct (last_checkpoint evs'); reflexivity.
  - rewrite IH. destruct (last_checkpoint evs'); reflexivity.
Qed.

(** The counters, the mode and the last checkpoint after a completed epoch. *)
Lemma epoch_body_counts dls epoch L w L' w' :
  epoch_body dls epoch L w = Returned L' w' ->
  history_lengths (hist L') = map S (history_lengths (hist L)) /\
  length (history_file (io w')) = S (length (history_file (io w))) /\
  length (checkpoints (io w')) = S (length (checkpoints (io w))) /\
  training w' = false /\
  last_checkpoint (io w') = Some (epoch, weights w', optim w').
Proof.
  intros H. apply epoch_body_anatomy in H.
  destruct H as (r1 & l1 & a1 & acc1 & f1 & p1 & rc1 & cm1 & w1
                 & r2 & l2 & a2 & acc2 & f2 & p2 & rc2 & cm2 & w2 & name
                 & Hs1 & _ & _ & Hs2 & _ & _ & _ & -> & ->).
  apply phase_stats_output in Hs1. destruct Hs1 as [Hio1 _].
  apply phase_stats_output in Hs2. destruct Hs2 as [Hio2 Htr2].
  split.
  { unfold promote, history_lengths.
    destruct (Qgtb a2 _); simpl; rewrite !length_app; simpl;
      rewrite !Nat.add_1_r; reflexivity. }
  simpl. rewrite Hio2, Hio1.
  rewrite !history_file_app, !checkpoints_app, !last_checkpoint_app.
  simpl. rewrite !app_nil_r, !length_app. simpl.
  rewrite !Nat.add_1_r. auto.
Qed.

Lemma epochs_loop_counts dls es : forall L w L' w',
  epochs_loop dls es L w = Returned L' w' ->
  history_lengths (hist L')
    = map (Nat.add (length es)) (history_lengths (hist L)) /\
  length (history_file (io w')) = length (history_file (io w)) + length es /\
  length (checkpoints (io w')) = length (checkpoints (io w)) + length es /\
  (es = [] -> w' = w) /\
  (es <> [] ->
   training w' = false /\
   last_checkpoint (io w') = Some (last es 0%Z, weights w', optim w')).
Proof.
  induction es as [| epoch rest IH]; intros L w L' w' H.
  - inversion H; subst. simpl. rewrite !Nat.add_0_r.
    repeat split; auto; congruence.
  - rewrite epochs_loop_cons in H.
    destruct (epoch_body dls epoch L w) as [L1 w1 | e w1] eqn:He;
      [| discriminate].
    apply epoch_body_counts in He.
    destruct He as (Hh1 & Hf1 & Hc1 & Ht1 & Hl1).
    destruct (IH _ _ _ _ H) as (Hh & Hf & Hc & Hnil & Hcons).
    split.
    { rewrite Hh, Hh1, map_map. apply map_ext. intros x. simpl. lia. }
    split; [simpl; lia|]. split; [simpl; lia|].
    split; [discriminate|]. intros _.
    destruct rest as [| e2 rest].
    + rewrite (Hnil eq_refl). simpl. auto.
    + apply Hcons. discriminate.
Qed.

Lemma py_range_cons s n :
  (s < n)%Z -> py_range s n = s :: py_range (s + 1) n.
Proof.
  intros H. unfold py_range.
  replace (Z.to_nat (n - s)) with (S (Z.to_nat (n - (s + 1)))) by lia.
  cbn [seq map]. f_equal; [lia|].
  rewrite <- seq_shift, map_map. apply map_ext. intros k. lia.
Qed.

Lemma py_range_nth s n k :
  k < Z.to_nat (n - s) ->
  nth_error (py_range s n) k = Some (s + Z.of_nat k)%Z.
Proof.
  intros H. unfold py_range.
  rewrite nth_error_map, nth_error_seq.
  apply Nat.ltb_lt in H. rewrite H. reflexivity.
Qed.

Lemma py_range_last s n :
  (s < n)%Z -> last (py_range s n) 0%Z = (n - 1)%Z.
Proof.
  intros H. unfold py_range.
  replace (Z.to_nat (n - s)) with (S (Z.to_nat (n - s - 1))) by lia.
  rewrite seq_S, map_app. cbn [map]. rewrite last_last. lia.
Qed.

(** X1.  A run that completes has run [max 0 (num_epochs - start_epoch)]
    epochs: each of the seven history sequences it returns has that many
    entries, and that many history records and checkpoints were added. *)
Theorem completed_run_has_one_entry_per_epoch dls start_epoch num_epochs w h w' :
  train_model dls start_epoch num_epochs w = Returned h w' ->
  history_lengths h = repeat (Z.to_nat (num_epochs - start_epoch)) 7 /\
  length (history_file (io w'))
    = length (history_file (io w)) + Z.to_nat (num_epochs - start_epoch) /\
  length (checkpoints (io w'))
    = length (checkpoints (io w)) + Z.to_nat (num_epochs - start_epoch).
Proof.
  rewrite train_model_unfold.
  destruct init_session_history as [e | u]; [discriminate|].
  destruct (epochs_loop dls (py_range start_epoch num_epochs) _ _)
    as [L w1 | e w1] eqn:Hloop; [| discriminate].
  intros H; inversion H; subst; clear H.
  apply epochs_loop_counts in Hloop.
  destruct Hloop as (Hh & Hf & Hc & _).
  unfold py_range in Hh, Hf, Hc. rewrite length_map, length_seq in Hh, Hf, Hc.
  simpl in Hf, Hc. rewrite history_file_app in Hf. rewrite checkpoints_app in Hc.
  simpl in Hf, Hc. rewrite app_nil_r in Hf, Hc.
  split; [| split; [exact Hf | exact Hc]].
  rewrite Hh. simpl. rewrite Nat.add_0_r. reflexivity.
Qed.

(** X2.  [train_model] never puts the model back into training mode: after a
    run of at least one epoch the returned model is in evaluation mode (the
    last phase was val and loading the best weights does not touch the
    mode); after a run of no epoch the mode is the one of the call. *)
Theorem returned_model_is_in_eval_mode dls start_epoch num_epochs w h w' :
  train_model dls start_epoch num_epochs w = Returned h w' ->
  training w' = if (start_epoch <? num_epochs)%Z then false else training w.
Proof.
  rewrite train_model_unfold.
  destruct init_session_history as [e | u]; [discriminate|].
  destruct (epochs_loop dls (py_range start_epoch num_epochs) _ _)
    as [L w1 | e w1] eqn:Hloop; [| discriminate].
  intros H; inversion H; subst; clear H.
  apply epochs_loop_counts in Hloop.
  destruct Hloop as (_ & _ & _ & Hnil & Hcons). simpl.
  destruct (Z.ltb_spec start_epoch num_epochs) as [Hlt | Hge].
  - apply Hcons. rewrite py_range_cons by exact Hlt. discriminate.
  - rewrite (Hnil (py_range_empty _ _ Hge)). reflexivity.
Qed.

(** X3.  Loading the best weights does not rewind the optimizer: after a run
    of at least one epoch the optimizer state of the returned world is the
    one saved in the last checkpoint, that of epoch [num_epochs - 1]. *)
Theorem optimizer_is_that_of_last_epoch dls start_epoch num_epochs w h w' :
  train_model dls start_epoch num_epochs w = Returned h w' ->
  (start_epoch < num_epochs)%Z ->
  exists s_last,
    last_checkpoint (io w') = Some ((num_epochs - 1)%Z, s_last, optim w').
Proof.
  rewrite train_model_unfold.
  destruct init_session_history as [e | u]; [discriminate|].
  destruct (epochs_loop dls (py_range start_epoch num_epochs) _ _)
    as [L w1 | e w1] eqn:Hloop; [| discriminate].
  intros H Hlt; inversion H; subst; clear H.
  apply epochs_loop_counts in Hloop.
  destruct Hloop as (_ & _ & _ & _ & Hcons).
  destruct Hcons as [_ Hlast];
    [rewrite py_range_cons by exact Hlt; discriminate|].
  rewrite py_range_last in Hlast by exact Hlt.
  exists (weights w1). exact Hlast.
Qed.

(** X4.  A loader that yields no batch makes its phase raise before any
    statistic is reported: [ZeroDivisionError] when the dataset is empty,
    otherwise [AttributeError], [running_corrects] still being the int [0].
    With such a train loader a run of at least one epoch raises in its first
    phase, having written only the session header. *)
Theorem empty_loader_raises dls start_epoch num_epochs epoch p L w :
  batches (dls p) = [] ->
  run_phase dls epoch p L w
    = Raised (if dataset_len (dls p) =? 0 then ZeroDivisionError
              else AttributeError)
        (with_training (Phase_eqb p train) w) /\
  (p = train -> init_session_history = inr tt ->
   (start_epoch < num_epochs)%Z ->
   train_model dls start_epoch num_epochs w
     = Raised (if dataset_len (dls train) =? 0 then ZeroDivisionError
               else AttributeError)
         (with_training true (with_io (io w ++ [SessionStarted]) w))).
Proof.
  intros Hb.
  assert (Hphase : forall ep L0 w0,
             run_phase dls ep p L0 w0
             = Raised (if dataset_len (dls p) =? 0 then ZeroDivisionError
                       else AttributeError)
                 (with_training (Phase_eqb p train) w0)).
  { intros ep L0 w0. rewrite run_phase_unfold.
    unfold phase_stats, bind, set_training, call. rewrite Hb. simpl.
    destruct (dataset_len (dls p)); reflexivity. }
  split; [apply Hphase|].
  intros -> Hinit Hlt.
  rewrite train_model_unfold, Hinit, py_range_cons by exact Hlt.
  rewrite epochs_loop_cons, epoch_body_unfold, Hphase. reflexivity.
Qed.

Lemma batch_iter_rows p bs : forall r w r' w',
  batch_iter p bs r w = Returned r' w' ->
  length (ground_truths r')
  = length (ground_truths r)
    + list_sum_nat (map (fun b => length (action b)) bs).
Proof.
  induction bs as [| b rest IH]; intros r w r' w' H.
  - inversion H; subst. simpl. lia.
  - rewrite batch_iter_cons in H.
    destruct (batch_step p b r w) as [r1 w1 | e w1] eqn:Hstep; [| discriminate].
    apply IH in H. apply batch_step_returned in Hstep.
    destruct Hstep as (outputs & targets & loss & preds & c
                       & _ & Ht & _ & _ & _ & -> & _).
    apply torch_max_1_length in Ht. simpl in H. rewrite length_app in H.
    simpl. lia.
Qed.

(** X5.  When a loader yields at most ten batches the cap is not reached and
    every batch is processed; if moreover the tensor shapes line up and the
    batches carry as many label rows as the dataset has samples, the epoch
    accuracy of the phase is exactly the fraction of agreeing positions of
    the recorded prediction and ground-truth lists. *)
Theorem full_pass_accuracy dls epoch p L w L' pv w' :
  length (batches (dls p)) <= 10 ->
  shapes_agree (dls p) ->
  rows_yielded (dls p) = dataset_len (dls p) ->
  run_phase dls epoch p L w = Returned (L', pv) w' ->
  exists r l a,
    phase_stats (dls p) p w = Returned (r, l, a) w' /\
    i r = length (batches (dls p)) /\
    length (ground_truths r) = dataset_len (dls p) /\
    a = metrics_accuracy (pred_classes r) (ground_truths r).
Proof.
  intros Hcap [Hfwd Hbs] Hrows H. apply run_phase_returned in H.
  destruct H as (r & l & a & acc & f1 & prec & rc & cm & Hst & _).
  exists r, l, a. split; [exact Hst|].
  apply phase_stats_returned in Hst.
  destruct Hst as (w1 & Hloop & _ & Hacc & _).
  rewrite batch_loop_from_start, firstn_all2 in Hloop by exact Hcap.
  pose proof (batch_iter_counter _ _ _ _ _ _ Hloop) as Hi.
  pose proof (batch_iter_rows _ _ _ _ _ _ Hloop) as Hr.
  destruct (batch_iter_corrects p _ init_running _ r w1 Hfwd Hbs
              eq_refl eq_refl Hloop) as [Hlen Hcnt].
  simpl in Hi, Hr. unfold rows_yielded in Hrows.
  split; [exact Hi|]. split; [lia|].
  unfold double_div in Hacc.
  destruct (running_corrects r) as [k | k]; [discriminate|].
  inversion Hacc; subst a. simpl in Hcnt.
  unfold metrics_accuracy. rewrite Hlen, Hcnt. f_equal. f_equal. lia.
Qed.

(** X6.  The record written for an epoch is assembled from that epoch's own
    two phases: its losses are the epoch losses of the train and val phase,
    its accuracy, F1, precision and recall are what
    [get_acc_f1_precision_recall] returned for the phase's recorded lists
    (predictions first), its confusion matrices are those of the same lists
    (ground truth first), and its name is the one [save_weights] returned
    for the model as the val phase left it. *)
Theorem history_record_of_epoch dls epoch L w L' w' :
  epoch_body dls epoch L w = Returned L' w' ->
  exists r1 l1 a1 w1 r2 l2 a2 w2 rec,
    phase_stats (dls train) train w = Returned (r1, l1, a1) w1 /\
    phase_stats (dls val) val w1 = Returned (r2, l2, a2) w2 /\
    history_file (io w') = history_file (io w) ++ [rec] /\
    train_loss rec = l1 /\ val_loss rec = l2 /\
    get_acc_f1_precision_recall (pred_classes r1) (ground_truths r1)
      = inr (train_accuracy rec, train_f1 rec,
             train_precision rec, train_recall rec) /\
    get_acc_f1_precision_recall (pred_classes r2) (ground_truths r2)
      = inr (val_accuracy rec, val_f1 rec, val_precision rec, val_recall rec) /\
    confusion_matrix (ground_truths r1) (pred_classes r1) labels10
      = inr (train_confusion_matrix rec) /\
    confusion_matrix (ground_truths r2) (pred_classes r2) labels10
      = inr (val_confusion_matrix rec) /\
    save_weights (weights w2) epoch (optim w2) = inr (model_name rec).
Proof.
  intros H. apply epoch_body_anatomy in H.
  destruct H as (r1 & l1 & a1 & acc1 & f1 & p1 & rc1 & cm1 & w1
                 & r2 & l2 & a2 & acc2 & f2 & p2 & rc2 & cm2 & w2 & name
                 & Hs1 & Hm1 & Hc1 & Hs2 & Hm2 & Hc2 & Hsave & -> & _).
  exists r1, l1, a1, w1, r2, l2, a2, w2. eexists.
  split; [exact Hs1|]. split; [exact Hs2|].
  apply phase_stats_output in Hs1. destruct Hs1 as [Hio1 _].
  apply phase_stats_output in Hs2. destruct Hs2 as [Hio2 _].
  split.
  { simpl. rewrite Hio2, Hio1, !history_file_app. simpl.
    rewrite !app_nil_r. reflexivity. }
  simpl. auto 10.
Qed.

(** X7.  The best accuracy the loop holds (the one reported at the end) is
    never negative, bounds every validation accuracy recorded so far, and is
    either the initial [0.0] or one of the recorded accuracies. *)
Theorem best_acc_bounds_validation_history dls es s0 w L' w' :
  epochs_loop dls es (init_locals s0) w = Returned L' w' ->
  (0 <= best_acc L')%Q /\
  (forall b, In b (val_acc_history (hist L')) -> (b <= best_acc L')%Q) /\
  (best_acc L' = 0%Q \/ In (best_acc L') (val_acc_history (hist L'))).
Proof.
  intros H.
  exact (epochs_keep_running_max _ _ _ _ _ _ (init_locals_running_max s0) H).
Qed.

End MoreProperties.

(** * The notebook around [train_model]: properties *)

(** ** Annotations by class *)

Lemma class_lists_are_filters d :
  class_lists d = map (fun k => by_class k d) [0; 1; 2; 3; 4; 5; 6; 7; 8; 9]%Z.
Proof. reflexivity. Qed.

Lemma class_hits_once (c : Z) (cs : list Z) :
  NoDup cs ->
  list_sum_nat (map (fun k => if (c =? k)%Z then 1 else 0) cs)
  = if existsb (Z.eqb c) cs then 1 else 0.
Proof.
  induction 1 as [| k cs Hk Hnd IH]; [reflexivity|].
  simpl. rewrite IH. destruct (Z.eqb_spec c k) as [-> | Hne]; simpl.
  - destruct (existsb (Z.eqb k) cs) eqn:E; [| reflexivity].
    apply existsb_exists in E. destruct E as (x & Hx & Hxk).
    apply Z.eqb_eq in Hxk. subst x. contradiction.
  - reflexivity.
Qed.

Lemma by_class_lengths cs d :
  NoDup cs ->
  list_sum_nat (map (fun k => length (by_class k d)) cs)
  = length (filter (fun val => existsb (Z.eqb (snd val)) cs) d).
Proof.
  intros Hnd. induction d as [| val d IH].
  - simpl. induction cs as [| k cs IHcs]; [reflexivity|].
    simpl. inversion Hnd; subst. now rewrite IHcs.
  - assert (Hsplit : forall l,
              list_sum_nat
                (map (fun k => length (by_class k (val :: d))) l)
              = list_sum_nat
                  (map (fun k => if (snd val =? k)%Z then 1 else 0) l)
                + list_sum_nat (map (fun k => length (by_class k d)) l)).
    { induction l as [| k l IHl]; [reflexivity|].
      unfold list_sum_nat in *. cbn [map fold_right]. rewrite IHl.
      unfold by_class at 1. cbn [filter].
      destruct (snd val =? k)%Z; cbn [length]; unfold by_class; lia. }
    rewrite Hsplit, IH, class_hits_once by exact Hnd. simpl.
    destruct (existsb (Z.eqb (snd val)) cs); simpl; lia.
Qed.

(** X8.  The ten per-class lists split the annotations by label: an item is in
    the list of class [j] exactly when it is an annotation with label [j], so
    no item is in two lists, and the ten lengths add up to the number of
    annotations labelled 0 to 9 (an item with another label is in none). *)
Theorem class_lists_partition_annotations annotation_dict :
  (forall j item, j < 10 ->
      (In item (nth j (class_lists annotation_dict) [])
       <-> In item annotation_dict /\ snd item = Z.of_nat j)) /\
  list_sum_nat (map (@length (string * Z)) (class_lists annotation_dict))
  = length (filter labelled_0_to_9 annotation_dict).
Proof.
  split.
  - intros j item Hj.
    do 10 (destruct j as [| j];
           [unfold class_lists, stop, ball_pass, race, pallegio, shooting,
              ballinhand, defence, pick_attempt, noaction, walk, by_class;
            cbn [nth]; rewrite filter_In, Z.eqb_eq; reflexivity|]).
    lia.
  - rewrite class_lists_are_filters, map_map.
    rewrite by_class_lengths by (repeat constructor; simpl; intuition lia).
    f_equal. apply filter_ext. intros [key c]. unfold labelled_0_to_9. simpl.
    destruct (Z.eqb_spec c 0), (Z.eqb_spec c 1), (Z.eqb_spec c 2),
      (Z.eqb_spec c 3), (Z.eqb_spec c 4), (Z.eqb_spec c 5), (Z.eqb_spec c 6),
      (Z.eqb_spec c 7), (Z.eqb_spec c 8), (Z.eqb_spec c 9);
      simpl; try lia; subst; reflexivity.
Qed.

(** ** The two index subsets *)

Lemma NoDup_app_disjoint {A} (l1 l2 : list A) x :
  NoDup (l1 ++ l2) -> In x l1 -> ~ In x l2.
Proof.
  induction l1 as [| y l1 IH]; intros Hnd Hin; [destruct Hin|].
  simpl in Hnd. inversion Hnd as [| ? ? Hy Hnd']; subst.
  destruct Hin as [-> | Hin]; [| now apply IH].
  intros Hx. apply Hy. apply in_or_app. now right.
Qed.

Lemma firstn_skipn_split {A} (l : list A) a b :
  l = (firstn a l ++ firstn b (skipn a l)) ++ skipn b (skipn a l).
Proof. now rewrite <- app_assoc, !firstn_skipn. Qed.

Lemma NoDup_firstn_skipn {A} (l : list A) a b :
  NoDup l -> NoDup (firstn a l ++ firstn b (skipn a l)).
Proof.
  intros H. pose proof (firstn_skipn_split l a b) as E.
  remember (firstn a l ++ firstn b (skipn a l)) as front.
  remember (skipn b (skipn a l)) as back.
  rewrite E in H. now apply NoDup_app_remove_r in H.
Qed.

Lemma In_firstn_skipn {A} (l : list A) a b x :
  In x (firstn a l ++ firstn b (skipn a l)) -> In x l.
Proof.
  intros H. rewrite (firstn_skipn_split l a b). apply in_or_app. now left.
Qed.

(** X9.  Whatever permutation the shuffle produces, the training and the
    validation indices are distinct samples of the dataset: no index is
    repeated or shared between the two subsets, all are below the dataset
    size, and the subsets have [min 100 size] and [min 100 (size - 100)]
    elements (so a dataset of at most 100 samples leaves the validation
    subset empty). *)
Theorem index_subsets_are_disjoint size shuffled :
  Permutation (seq 0 size) shuffled ->
  NoDup (train_idx shuffled ++ test_idx shuffled) /\
  (forall k, In k (train_idx shuffled) -> ~ In k (test_idx shuffled)) /\
  (forall k, In k (train_idx shuffled ++ test_idx shuffled) -> k < size) /\
  length (train_idx shuffled) = Nat.min 100 size /\
  length (test_idx shuffled) = Nat.min 100 (size - 100).
Proof.
  intros Hperm. unfold train_idx, test_idx.
  assert (Hnd : NoDup shuffled)
    by (eapply Permutation_NoDup; [exact Hperm | apply seq_NoDup]).
  assert (Hlen : length shuffled = size)
    by (rewrite <- (Permutation_length Hperm); apply length_seq).
  assert (Hnd2 : NoDup (firstn 100 shuffled
                        ++ firstn (200 - 100) (skipn 100 shuffled)))
    by (now apply NoDup_firstn_skipn).
  split; [exact Hnd2|]. split; [intros k; now apply NoDup_app_disjoint|].
  split.
  - intros k Hk.
    assert (Hin : In k shuffled)
      by (eapply In_firstn_skipn; exact Hk).
    apply (Permutation_in k (Permutation_sym Hperm)) in Hin.
    apply in_seq in Hin. lia.
  - rewrite !length_firstn, length_skipn, Hlen. lia.
Qed.

(** ** Choosing the trainable layers *)

Lemma prefix_spec a : forall s,
  prefix a s = true <-> exists post, s = (a ++ post)%string.
Proof.
  induction a as [| c a IH]; intros s.
  - split; [intros _; now exists s | intros _; destruct s; reflexivity].
  - destruct s as [| d s]; simpl.
    + split; [discriminate | intros (post & H); discriminate].
    + destruct (ascii_dec c d) as [-> | Hne].
      * rewrite IH. split; intros (post & H); exists post.
        -- now rewrite H.
        -- now inversion H.
      * split; [discriminate|]. intros (post & H). inversion H.
        congruence.
Qed.

Lemma py_in_spec sub : forall s,
  py_in sub s = true <->
  exists pre post, s = (pre ++ sub ++ post)%string.
Proof.
  induction s as [| d s IH]; cbn [py_in].
  - rewrite orb_false_r, prefix_spec. split.
    + intros (post & H). now exists EmptyString, post.
    + intros (pre & post & H). destruct pre; [now exists post | discriminate].
  - rewrite orb_true_iff, prefix_spec, IH. split.
    + intros [(post & H) | (pre & post & H)].
      * now exists EmptyString, post.
      * exists (String d pre), post. simpl. now rewrite H.
    + intros (pre & post & H). destruct pre as [| e pre]; simpl in H.
      * left. now exists post.
      * right. inversion H. now exists pre, post.
Qed.

Lemma unfreeze_layers_spec layers name : forall g,
  unfreeze_layers layers name g
  = g || existsb (fun layer => py_in layer name) layers.
Proof.
  induction layers as [| layer rest IH]; intros g; simpl.
  - now rewrite orb_false_r.
  - rewrite IH. destruct (py_in layer name), g; reflexivity.
Qed.

(** X10.  After the two loops a parameter requires gradients exactly when
    some entry of [layers_list] occurs somewhere in its name (a substring
    match, not a match on the layer path); the flags the parameters had
    before play no part, names and order are kept, an empty [layers_list]
    freezes everything and an empty-string entry unfreezes everything. *)
Theorem trainable_iff_name_contains_layer layers_list params :
  select_trainable layers_list params
    = map (fun name =>
             (name, existsb (fun layer => py_in layer name) layers_list))
          (map fst params) /\
  (forall name g,
      In (name, g) (select_trainable layers_list params) ->
      (g = true <->
       exists layer pre post,
         In layer layers_list /\ name = (pre ++ layer ++ post)%string)) /\
  select_trainable [] params = freeze_all params /\
  (In EmptyString layers_list ->
   Forall (fun np => snd np = true) (select_trainable layers_list params)).
Proof.
  assert (Heq : select_trainable layers_list params
                = map (fun name =>
                         (name,
                          existsb (fun layer => py_in layer name) layers_list))
                      (map fst params)).
  { unfold select_trainable, unfreeze, freeze_all. rewrite !map_map.
    apply map_ext. intros [name g]. simpl.
    now rewrite unfreeze_layers_spec. }
  split; [exact Heq|]. split; [| split].
  - intros name g Hin. rewrite Heq in Hin. apply in_map_iff in Hin.
    destruct Hin as (n & Hn & _). inversion Hn; subst. clear Hn.
    rewrite existsb_exists. split.
    + intros (layer & Hl & Hp). apply py_in_spec in Hp.
      destruct Hp as (pre & post & Hp). now exists layer, pre, post.
    + intros (layer & pre & post & Hl & Hp). exists layer.
      split; [exact Hl|]. apply py_in_spec. now exists pre, post.
  - unfold select_trainable, unfreeze, freeze_all. rewrite map_map.
    apply map_ext. intros [name g]. reflexivity.
  - intros Hempty. rewrite Heq. apply Forall_forall. intros np Hin.
    apply in_map_iff in Hin. destruct Hin as (n & <- & _). simpl.
    apply existsb_exists. exists EmptyString. split; [exact Hempty|].
    apply py_in_spec. now exists EmptyString, n.
Qed.

(** ** The best-loss summary *)

Lemma min_from_spec l : forall cur,
  (min_from cur l = cur \/ In (min_from cur l) l) /\
  (min_from cur l <= cur)%Q /\
  (forall x, In x l -> (min_from cur l <= x)%Q).
Proof.
  induction l as [| y l IH]; intros cur; simpl.
  - split; [now left|]. split; [apply Qle_refl | intros x []].
  - destruct (Qgtb cur y) eqn:Hg.
    + apply Qgtb_true in Hg. destruct (IH y) as (Hin & Hle & Hall).
      split; [destruct Hin as [-> | Hin]; auto|].
      split; [eapply Qle_trans; [exact Hle | now apply Qlt_le_weak]|].
      intros x [<- | Hx]; auto.
    + apply Qgtb_false in Hg. destruct (IH cur) as (Hin & Hle & Hall).
      split; [destruct Hin as [-> | Hin]; auto|].
      split; [exact Hle|].
      intros x [<- | Hx]; [eapply Qle_trans; eauto | auto].
Qed.

Lemma index_from_spec l : forall k x,
  (exists y, In y l /\ (y == x)%Q) ->
  exists j,
    index_from k l x = inr (k + j) /\ j < length l /\
    (exists y, nth_error l j = Some y /\ (y == x)%Q) /\
    (forall j' y', j' < j -> nth_error l j' = Some y' -> ~ (y' == x)%Q).
Proof.
  induction l as [| z l IH]; intros k x (y & Hin & Hy); [destruct Hin|].
  simpl. destruct (Qeq_bool z x) eqn:Hz.
  - apply Qeq_bool_iff in Hz. exists 0. rewrite Nat.add_0_r.
    split; [reflexivity|]. split; [simpl; lia|].
    split; [now exists z | intros j' y' Hj; lia].
  - assert (Hne : ~ (z == x)%Q)
      by (intros E; apply Qeq_bool_iff in E; congruence).
    destruct Hin as [-> | Hin]; [contradiction|].
    destruct (IH (S k) x (ex_intro _ y (conj Hin Hy)))
      as (j & Hidx & Hj & Hat & Hbefore).
    exists (S j). rewrite Hidx.
    split; [f_equal; lia|]. split; [simpl; lia|]. split; [exact Hat|].
    intros [| j'] y' Hlt Hnth; simpl in Hnth.
    + inversion Hnth; subst. exact Hne.
    + apply (Hbefore j' y'); [lia | exact Hnth].
Qed.

Lemma best_loss_summary_succeeds history :
  history <> [] ->
  exists m k,
    best_loss_summary history = inr (m, k) /\
    k < length history /\
    In m history /\
    (forall x, In x history -> (m <= x)%Q) /\
    (exists y, nth_error history k = Some y /\ (y == m)%Q) /\
    (forall j y, j < k -> nth_error history j = Some y -> (m < y)%Q).
Proof.
  destruct history as [| x rest]; [congruence|]. intros _.
  unfold best_loss_summary, py_min, py_index.
  destruct (min_from_spec rest x) as (Hin & Hle & Hall).
  set (m := min_from x rest) in *.
  assert (Hm : In m (x :: rest)) by (destruct Hin as [-> | Hin]; simpl; auto).
  assert (Hmin : forall y, In y (x :: rest) -> (m <= y)%Q)
    by (intros y [<- | Hy]; auto).
  destruct (index_from_spec (x :: rest) 0 m)
    as (k & Hidx & Hk & Hat & Hbefore).
  { exists m. split; [exact Hm | apply Qeq_refl]. }
  rewrite Hidx. exists m, k.
  split; [reflexivity|]. split; [exact Hk|]. split; [exact Hm|].
  split; [exact Hmin|]. split; [exact Hat|].
  intros j y Hj Hnth.
  assert (Hle' : (m <= y)%Q)
    by (apply Hmin; eapply nth_error_In; exact Hnth).
  apply Qle_lteq in Hle'.
  destruct Hle' as [Hlt | Heq]; [exact Hlt|].
  exfalso. apply (Hbefore j y Hj Hnth). now symmetry.
Qed.

Lemma float_lt_nan_r a : float_lt a NaN = false.
Proof. destruct a; reflexivity. Qed.

Lemma float_lt_not_nan a b : float_lt a b = true -> a <> NaN /\ b <> NaN.
Proof. destruct a, b; simpl; intros H; split; congruence. Qed.

(** Below the item kept, below everything that is not below the item kept. *)
Lemma float_lt_below x c y :
  float_lt x c = true -> float_lt y c = false ->
  y = NaN \/ float_lt x y = true.
Proof.
  destruct x as [| x | |], c as [| c | |], y as [| y | |]; simpl;
    try discriminate; auto.
  intros Hx Hy. right. apply Qgtb_true in Hx. apply Qgtb_false in Hy.
  apply Qgtb_iff. eapply Qlt_le_trans; eassumption.
Qed.

Lemma float_lt_asym x y : float_lt x y = true -> float_lt y x = false.
Proof.
  destruct x as [| x | |], y as [| y | |]; simpl; try discriminate; auto.
  intros H. apply Qgtb_true in H.
  destruct (Qgtb x y) eqn:E; [| reflexivity].
  apply Qgtb_true in E. exfalso. exact (Qlt_irrefl _ (Qlt_trans _ _ _ H E)).
Qed.

Lemma float_lt_not_eq m y : float_lt m y = true -> float_eq y m = false.
Proof.
  destruct m as [| m | |], y as [| y | |]; simpl; try discriminate; auto.
  intros H. apply Qgtb_true in H.
  destruct (Qeq_bool y m) eqn:E; [| reflexivity].
  apply Qeq_bool_iff in E. rewrite E in H. exfalso. exact (Qlt_irrefl _ H).
Qed.

Lemma float_min_from_spec l : forall seen cur,
  kept_minimum seen cur ->
  kept_minimum (seen ++ l) (float_min_from cur (length seen) l).
Proof.
  induction l as [| x l IH]; intros seen cur Hk.
  - simpl. now rewrite app_nil_r.
  - destruct Hk as (Hat & Hnan & Hlow & Hbefore).
    assert (Hpos : fst cur < length seen)
      by (apply nth_error_Some; congruence).
    replace (seen ++ x :: l) with ((seen ++ [x]) ++ l)
      by (now rewrite <- app_assoc).
    cbn [float_min_from].
    replace (S (length seen)) with (length (seen ++ [x]))
      by (rewrite length_app; simpl; lia).
    destruct (float_lt x (snd cur)) eqn:Hlt; apply IH; unfold kept_minimum;
      cbn [fst snd].
    + split; [rewrite nth_error_app2, Nat.sub_diag by lia; reflexivity|].
      split; [apply (float_lt_not_nan _ _ Hlt)|]. split.
      * intros y Hy. apply in_app_or in Hy. destruct Hy as [Hy | [<- | []]].
        -- destruct (float_lt_below _ _ _ Hlt (Hlow y Hy)) as [-> | Hxy];
             [reflexivity | now apply float_lt_asym].
        -- destruct (float_lt x x) eqn:E; [| reflexivity].
           now rewrite (float_lt_asym _ _ E) in E.
      * intros j y Hj Hnth. rewrite nth_error_app1 in Hnth by exact Hj.
        apply (float_lt_below _ _ _ Hlt). apply Hlow.
        eapply nth_error_In; exact Hnth.
    + split; [rewrite nth_error_app1 by exact Hpos; exact Hat|].
      split; [exact Hnan|]. split.
      * intros y Hy. apply in_app_or in Hy.
        destruct Hy as [Hy | [<- | []]]; auto.
      * intros j y Hj Hnth. rewrite nth_error_app1 in Hnth by lia.
        exact (Hbefore j y Hj Hnth).
Qed.

(** A NaN in first position is kept to the end. *)
Lemma float_min_from_nan l : forall k,
  float_min_from (0, NaN) k l = (0, NaN).
Proof.
  induction l as [| x l IH]; intros k; [reflexivity|].
  cbn [float_min_from snd]. rewrite float_lt_nan_r. apply IH.
Qed.

Lemma float_index_from_finds l : forall k p m,
  nth_error l p = Some m ->
  (forall j y, j < p -> nth_error l j = Some y -> float_eq y m = false) ->
  float_index_from k l (k + p, m) = inr (k + p).
Proof.
  induction l as [| y l IH]; intros k p m Hat Hbefore;
    [destruct p; discriminate|].
  cbn [float_index_from fst snd]. destruct p as [| p].
  - rewrite Nat.add_0_r, Nat.eqb_refl. reflexivity.
  - assert (Hk : (k =? k + S p) = false) by (apply Nat.eqb_neq; lia).
    rewrite Hk, (Hbefore 0 y) by (simpl; auto; lia). simpl.
    replace (k + S p) with (S k + p) by lia. apply IH; [exact Hat|].
    intros j z Hj Hnth. apply (Hbefore (S j) z); [lia | exact Hnth].
Qed.

Lemma float_min_from_finite l : forall p c k,
  snd (float_min_from (p, Finite c) k (map Finite l)) = Finite (min_from c l).
Proof.
  induction l as [| x l IH]; intros p c k; [reflexivity|].
  cbn [map float_min_from min_from snd float_lt].
  destruct (Qgtb c x); apply IH.
Qed.

Lemma index_from_finds l : forall k p m,
  nth_error l p = Some m ->
  (forall j y, j < p -> nth_error l j = Some y -> Qeq_bool y m = false) ->
  index_from k l m = inr (k + p).
Proof.
  induction l as [| y l IH]; intros k p m Hat Hbefore;
    [destruct p; discriminate|].
  cbn [index_from]. destruct p as [| p].
  - simpl in Hat. inversion Hat; subst.
    assert (E : Qeq_bool m m = true) by (apply Qeq_bool_iff, Qeq_refl).
    rewrite E, Nat.add_0_r. reflexivity.
  - rewrite (Hbefore 0 y) by (simpl; auto; lia).
    replace (k + S p) with (S k + p) by lia. apply IH; [exact Hat|].
    intros j z Hj Hnth. apply (Hbefore (S j) z); [lia | exact Hnth].
Qed.

(** On a history that starts with a value other than NaN. *)
Lemma float_loss_summary_ordered x rest :
  x <> NaN ->
  exists m k,
    float_loss_summary (x :: rest) = inr (m, k) /\
    kept_minimum (x :: rest) (k, m).
Proof.
  intros Hx.
  assert (Hk : kept_minimum ([x] ++ rest) (float_min_from (0, x) 1 rest)).
  { apply (float_min_from_spec rest [x] (0, x)). unfold kept_minimum.
    cbn [fst snd]. split; [reflexivity|]. split; [exact Hx|]. split.
    - intros y [<- | []]. destruct (float_lt x x) eqn:E; [| reflexivity].
      now rewrite (float_lt_asym _ _ E) in E.
    - intros j y Hj. lia. }
  cbn [app] in Hk.
  unfold float_loss_summary, float_min, float_index.
  destruct (float_min_from (0, x) 1 rest) as [p m].
  exists m, p.
  pose proof Hk as (Hat & _ & _ & Hbefore). cbn [fst snd] in Hat, Hbefore.
  assert (Hidx : float_index_from 0 (x :: rest) (p, m) = inr p).
  { apply (float_index_from_finds (x :: rest) 0 p m Hat).
    intros j y Hj Hnth.
    destruct (Hbefore j y Hj Hnth) as [-> | Hlt];
      [reflexivity | now apply float_lt_not_eq]. }
  rewrite Hidx. split; [reflexivity | exact Hk].
Qed.

(** X11.  The summary line on a history of Python floats.  On an empty
    history it raises [ValueError].  On any other history it succeeds with
    an entry [m] of the history and the position [k] of that entry.  When the
    first entry is NaN, [m] is NaN and [k] is 0, whatever follows.  When the
    first entry is not NaN, [m] is not NaN, no entry compares less than [m],
    and every entry before position [k] is NaN or strictly larger than [m]:
    NaN entries after the first are passed over.  On a history without NaN
    and infinities the result is the one [best_loss_summary] gives on the
    values. *)
Theorem float_loss_summary_spec history :
  (history = [] -> float_loss_summary history = inl ValueError) /\
  (forall x rest,
      history = x :: rest ->
      exists m k,
        float_loss_summary history = inr (m, k) /\
        nth_error history k = Some m /\
        (x = NaN -> m = NaN /\ k = 0) /\
        (x <> NaN ->
         m <> NaN /\
         (forall y, In y history -> float_lt y m = false) /\
         (forall j y, j < k -> nth_error history j = Some y ->
                      y = NaN \/ float_lt m y = true))) /\
  (forall l,
      history = map Finite l ->
      float_loss_summary history = as_float_summary (best_loss_summary l)).
Proof.
  split; [intros ->; reflexivity|]. split.
  - intros x rest ->.
    assert (Hdec : x = NaN \/ x <> NaN)
      by (destruct x; [right | right | right | left]; congruence).
    destruct Hdec as [-> | Hx].
    + exists NaN, 0.
      unfold float_loss_summary, float_min, float_index.
      rewrite float_min_from_nan. cbn [float_index_from fst snd Nat.eqb orb].
      split; [reflexivity|]. split; [reflexivity|].
      split; [auto | congruence].
    + destruct (float_loss_summary_ordered x rest Hx)
        as (m & k & Hs & Hat & Hnan & Hlow & Hbefore).
      cbn [fst snd] in *.
      exists m, k. split; [exact Hs|]. split; [exact Hat|].
      split; [congruence | auto].
  - intros l ->. destruct l as [| x rest]; [reflexivity|].
    cbn [map].
    destruct (float_loss_summary_ordered (Finite x) (map Finite rest))
      as (m & k & Hs & Hat & Hnan & Hlow & Hbefore); [discriminate|].
    cbn [fst snd] in *. rewrite Hs.
    assert (Hm : m = Finite (min_from x rest)).
    { unfold float_loss_summary, float_min, float_index in Hs.
      pose proof (float_min_from_finite rest 0 x 1) as Hv.
      destruct (float_min_from (0, Finite x) 1 (map Finite rest)) as [p v].
      cbn [snd] in Hv, Hs.
      destruct (float_index_from 0 (Finite x :: map Finite rest) (p, v));
        [discriminate|].
      inversion Hs; subst. reflexivity. }
    subst m. unfold best_loss_summary, py_min, py_index.
    change (Finite x :: map Finite rest) with (map Finite (x :: rest))
      in Hat, Hbefore.
    assert (Hidx : index_from 0 (x :: rest) (min_from x rest) = inr k);
      [apply (index_from_finds (x :: rest) 0 k (min_from x rest))
      | rewrite Hidx; reflexivity].
    + rewrite nth_error_map in Hat.
      destruct (nth_error (x :: rest) k) as [v |]; [| discriminate].
      simpl in Hat. inversion Hat; subst. reflexivity.
    + intros j y Hj Hnth.
      destruct (Hbefore j (Finite y) Hj) as [E | Hlt]; [| discriminate |].
      * rewrite nth_error_map, Hnth. reflexivity.
      * apply float_lt_not_eq in Hlt. exact Hlt.
Qed.

(** ** The summary after training *)

Section SummaryAfterTraining.

Context {T : Collaborators}.

(** X12.  After a run of at least one epoch both summary lines succeed, and
    the index [k] they print is a position in the history, not an epoch
    number: the epoch it refers to is [plot_epoch[k] = start_epoch + k].
    After a run of no epoch the first summary line raises [ValueError]. *)
Theorem summary_after_training dls start_epoch num_epochs w h w' :
  train_model dls start_epoch num_epochs w = Returned h w' ->
  if (start_epoch <? num_epochs)%Z then
    exists mv kv mt kt,
      best_loss_summary (val_loss_history h) = inr (mv, kv) /\
      nth_error (plot_epoch h) kv = Some (start_epoch + Z.of_nat kv)%Z /\
      best_loss_summary (train_loss_history h) = inr (mt, kt) /\
      nth_error (plot_epoch h) kt = Some (start_epoch + Z.of_nat kt)%Z
  else best_loss_summary (val_loss_history h) = inl ValueError.
Proof.
  rewrite train_model_unfold.
  destruct init_session_history as [e | u]; [discriminate|].
  destruct (epochs_loop dls (py_range start_epoch num_epochs) _ _)
    as [L w1 | e w1] eqn:Hloop; [| discriminate].
  intros H; inversion H; subst; clear H.
  destruct (epochs_keep_first_max _ _ _ _ _ _ _ _
              (init_locals_first_max (weights w)) Hloop)
    as (_ & _ & _ & _ & Hpl & _).
  apply epochs_loop_counts in Hloop. destruct Hloop as (Hh & _).
  unfold history_lengths in Hh. simpl in Hh. rewrite Hpl. simpl.
  unfold py_range in Hh. rewrite length_map, length_seq in Hh.
  injection Hh as Htl Hvl _ _ _ _ _. rewrite Nat.add_0_r in Htl, Hvl.
  destruct (Z.ltb_spec start_epoch num_epochs) as [Hlt | Hge].
  - destruct (best_loss_summary_succeeds (val_loss_history (hist L)))
      as (mv & kv & Hv & Hkv & _).
    { intros E. rewrite E in Hvl. simpl in Hvl. lia. }
    destruct (best_loss_summary_succeeds (train_loss_history (hist L)))
      as (mt & kt & Ht & Hkt & _).
    { intros E. rewrite E in Htl. simpl in Htl. lia. }
    exists mv, kv, mt, kt.
    split; [exact Hv|]. split; [apply py_range_nth; lia|].
    split; [exact Ht | apply py_range_nth; lia].
  - replace (Z.to_nat (num_epochs - start_epoch)) with 0 in Hvl by lia.
    apply length_zero_iff_nil in Hvl. rewrite Hvl. reflexivity.
Qed.

End SummaryAfterTraining.

(** * The further properties at work on concrete data *)

Lemma completed_run_has_one_entry_per_epoch_witness :
  train_model (T := toy) toy_loaders 1 5 (toy_start 0)
    = Returned toy_run_hist toy_run_world /\
  history_lengths toy_run_hist = repeat (Z.to_nat (5 - 1)) 7 /\
  length (history_file (io toy_run_world))
    = length (history_file (io (toy_start 0))) + Z.to_nat (5 - 1) /\
  length (checkpoints (io toy_run_world))
    = length (checkpoints (io (toy_start 0))) + Z.to_nat (5 - 1).
Proof.
  split; [vm_compute; reflexivity|].
  apply (completed_run_has_one_entry_per_epoch (T := toy) toy_loaders 1 5
           (toy_start 0) toy_run_hist toy_run_world).
  vm_compute. reflexivity.
Defined.

Lemma returned_model_is_in_eval_mode_witness :
  training (toy_start 0) = true /\
  training toy_run_world
    = if (1 <? 5)%Z then false else training (toy_start 0).
Proof.
  split; [reflexivity|].
  apply (returned_model_is_in_eval_mode (T := toy) toy_loaders 1 5
           (toy_start 0) toy_run_hist toy_run_world).
  vm_compute. reflexivity.
Defined.

Lemma optimizer_is_that_of_last_epoch_witness :
  weights toy_run_world = 2 /\ optim toy_run_world = 4 /\
  exists s_last,
    last_checkpoint (io toy_run_world)
      = Some ((5 - 1)%Z, s_last, optim toy_run_world).
Proof.
  split; [vm_compute; reflexivity|]. split; [vm_compute; reflexivity|].
  apply (optimizer_is_that_of_last_epoch (T := toy) toy_loaders 1 5
           (toy_start 0) toy_run_hist toy_run_world).
  - vm_compute. reflexivity.
  - lia.
Defined.

Lemma empty_loader_raises_witness :
  run_phase (T := toy) toy_loaders_empty 1 train (init_locals (T := toy) 0)
    (toy_start 0)
    = Raised AttributeError (with_training true (toy_start 0)) /\
  train_model (T := toy) toy_loaders_empty 1 5 (toy_start 0)
    = Raised AttributeError
        (with_training true
           (with_io (io (toy_start 0) ++ [SessionStarted]) (toy_start 0))).
Proof.
  destruct (empty_loader_raises (T := toy) toy_loaders_empty 1 5 1 train
              (init_locals (T := toy) 0) (toy_start 0) eq_refl)
    as [Hphase Hrun].
  split; [exact Hphase|].
  apply Hrun; [reflexivity | reflexivity | lia].
Defined.

Lemma full_pass_accuracy_witness :
  run_phase (T := toy) toy_loaders 1 val (init_locals (T := toy) 0)
    (toy_start 2) = Returned (toy_full_locals, toy_full_vars) toy_full_world /\
  val_acc_history (hist toy_full_locals) = [3 # 4]%Q /\
  exists r l a,
    phase_stats (T := toy) (toy_loaders val) val (toy_start 2)
      = Returned (r, l, a) toy_full_world /\
    i r = length (batches (toy_loaders val)) /\
    length (ground_truths r) = dataset_len (toy_loaders val) /\
    a = metrics_accuracy (pred_classes r) (ground_truths r).
Proof.
  split; [vm_compute; reflexivity|].
  split; [vm_compute; reflexivity|].
  apply (full_pass_accuracy (T := toy) toy_loaders 1 val
           (init_locals (T := toy) 0) (toy_start 2)
           toy_full_locals toy_full_vars toy_full_world).
  - simpl. lia.
  - split.
    + intros m s x out H. simpl in H. inversion H. apply length_map.
    + repeat constructor.
  - reflexivity.
  - vm_compute. reflexivity.
Defined.

Lemma history_record_of_epoch_witness :
  epoch_body (T := toy) toy_loaders 1 (init_locals (T := toy) 0) (toy_start 0)
    = Returned toy_epoch1_locals toy_epoch1_world /\
  exists r1 l1 a1 w1 r2 l2 a2 w2 rec,
    phase_stats (T := toy) (toy_loaders train) train (toy_start 0)
      = Returned (r1, l1, a1) w1 /\
    phase_stats (T := toy) (toy_loaders val) val w1
      = Returned (r2, l2, a2) w2 /\
    history_file (io toy_epoch1_world)
      = history_file (io (toy_start 0)) ++ [rec] /\
    train_loss rec = l1 /\ val_loss rec = l2 /\
    get_acc_f1_precision_recall (Collaborators := toy)
      (pred_classes r1) (ground_truths r1)
      = inr (train_accuracy rec, train_f1 rec,
             train_precision rec, train_recall rec) /\
    get_acc_f1_precision_recall (Collaborators := toy)
      (pred_classes r2) (ground_truths r2)
      = inr (val_accuracy rec, val_f1 rec, val_precision rec, val_recall rec) /\
    confusion_matrix (ground_truths r1) (pred_classes r1) labels10
      = inr (train_confusion_matrix rec) /\
    confusion_matrix (ground_truths r2) (pred_classes r2) labels10
      = inr (val_confusion_matrix rec) /\
    save_weights (Collaborators := toy) (weights w2) 1 (optim w2)
      = inr (model_name rec).
Proof.
  split; [vm_compute; reflexivity|].
  apply (history_record_of_epoch (T := toy) toy_loaders 1
           (init_locals (T := toy) 0) (toy_start 0)
           toy_epoch1_locals toy_epoch1_world).
  vm_compute. reflexivity.
Defined.

Lemma best_acc_bounds_validation_history_witness :
  best_acc toy_epoch2_locals = (3 # 4)%Q /\
  (0 <= best_acc toy_epoch2_locals)%Q /\
  (forall b, In b (val_acc_history (hist toy_epoch2_locals)) ->
             (b <= best_acc toy_epoch2_locals)%Q) /\
  (best_acc toy_epoch2_locals = 0%Q \/
   In (best_acc toy_epoch2_locals) (val_acc_history (hist toy_epoch2_locals))).
Proof.
  split; [vm_compute; reflexivity|].
  apply (best_acc_bounds_validation_history (T := toy) toy_loaders
           [1%Z; 2%Z] 0 (toy_start 0) toy_epoch2_locals toy_epoch2_world).
  vm_compute. reflexivity.
Defined.

Lemma class_lists_partition_annotations_witness :
  shooting toy_annotations = [("clip0"%string, 4%Z); ("clip2"%string, 4%Z)] /\
  (In ("clip2"%string, 4%Z) (nth 4 (class_lists toy_annotations) [])
   <-> In ("clip2"%string, 4%Z) toy_annotations
       /\ snd ("clip2"%string, 4%Z) = Z.of_nat 4) /\
  list_sum_nat (map (@length (string * Z)) (class_lists toy_annotations)) = 4.
Proof.
  destruct (class_lists_partition_annotations toy_annotations)
    as [Hin Hcount].
  split; [reflexivity|]. split.
  - apply Hin. lia.
  - rewrite Hcount. reflexivity.
Defined.

Lemma index_subsets_are_disjoint_witness :
  Permutation (seq 0 250) (rev (seq 0 250)) /\
  NoDup (train_idx (rev (seq 0 250)) ++ test_idx (rev (seq 0 250))) /\
  (forall k, In k (train_idx (rev (seq 0 250))) ->
             ~ In k (test_idx (rev (seq 0 250)))) /\
  (forall k, In k (train_idx (rev (seq 0 250)) ++ test_idx (rev (seq 0 250))) ->
             k < 250) /\
  length (train_idx (rev (seq 0 250))) = Nat.min 100 250 /\
  length (test_idx (rev (seq 0 250))) = Nat.min 100 (250 - 100).
Proof.
  split; [apply Permutation_rev|].
  apply (index_subsets_are_disjoint 250 (rev (seq 0 250))).
  apply Permutation_rev.
Defined.

Lemma trainable_iff_name_contains_layer_witness :
  select_trainable toy_layers_list toy_named_parameters
  = [("stem.0.weight"%string, false); ("layer3.0.conv1.weight"%string, true);
     ("layer4.1.bn.bias"%string, true); ("fc.weight"%string, true);
     ("fc.bias"%string, true)] /\
  (In ("stem.0.weight"%string, false)
      (select_trainable toy_layers_list toy_named_parameters) ->
   (false = true <->
    exists layer pre post,
      In layer toy_layers_list /\
      "stem.0.weight"%string = (pre ++ layer ++ post)%string)).
Proof.
  destruct (trainable_iff_name_contains_layer toy_layers_list
              toy_named_parameters) as (Heq & Hiff & _).
  split.
  - rewrite Heq. vm_compute. reflexivity.
  - apply Hiff.
Defined.

Lemma float_loss_summary_spec_witness :
  (float_loss_summary toy_float_history_nan_first = inr (NaN, 0) /\
   exists m k,
     float_loss_summary toy_float_history_nan_first = inr (m, k) /\
     m = NaN /\ k = 0) /\
  (float_loss_summary toy_float_history_nan_inside
     = inr (Finite (3 # 10), 2) /\
   exists m k,
     float_loss_summary toy_float_history_nan_inside = inr (m, k) /\
     nth_error toy_float_history_nan_inside k = Some m /\
     m <> NaN /\
     (forall y, In y toy_float_history_nan_inside -> float_lt y m = false) /\
     (forall j y, j < k -> nth_error toy_float_history_nan_inside j = Some y ->
                  y = NaN \/ float_lt m y = true)) /\
  float_loss_summary (map Finite toy_loss_history)
    = as_float_summary (best_loss_summary toy_loss_history) /\
  float_loss_summary (map Finite toy_loss_history) = inr (Finite (1 # 2), 1).
Proof.
  split; [| split; [| split]].
  - split; [vm_compute; reflexivity|].
    destruct (proj1 (proj2 (float_loss_summary_spec
                              toy_float_history_nan_first))
                NaN [Finite (1 # 2); Finite (3 # 10)] eq_refl)
      as (m & k & Hs & _ & Hnan & _).
    exists m, k. split; [exact Hs | exact (Hnan eq_refl)].
  - split; [vm_compute; reflexivity|].
    destruct (proj1 (proj2 (float_loss_summary_spec
                              toy_float_history_nan_inside))
                (Finite (1 # 2)) [NaN; Finite (3 # 10)] eq_refl)
      as (m & k & Hs & Hat & _ & Hok).
    exists m, k. split; [exact Hs|]. split; [exact Hat|].
    apply Hok. discriminate.
  - exact (proj2 (proj2 (float_loss_summary_spec
                           (map Finite toy_loss_history)))
             toy_loss_history eq_refl).
  - vm_compute. reflexivity.
Defined.

Lemma summary_after_training_witness :
  train_model (T := toy) toy_loaders 1 5 (toy_start 0)
    = Returned toy_run_hist toy_run_world /\
  best_loss_summary (val_loss_history toy_run_hist) = inr ((2 # 4)%Q, 1) /\
  nth_error (plot_epoch toy_run_hist) 1 = Some 2%Z /\
  if (1 <? 5)%Z then
    exists mv kv mt kt,
      best_loss_summary (val_loss_history toy_run_hist) = inr (mv, kv) /\
      nth_error (plot_epoch toy_run_hist) kv = Some (1 + Z.of_nat kv)%Z /\
      best_loss_summary (train_loss_history toy_run_hist) = inr (mt, kt) /\
      nth_error (plot_epoch toy_run_hist) kt = Some (1 + Z.of_nat kt)%Z
  else best_loss_summary (val_loss_history toy_run_hist) = inl ValueError.
Proof.
  split; [vm_compute; reflexivity|].
  split; [vm_compute; reflexivity|]. split; [vm_compute; reflexivity|].
  apply (summary_after_training (T := toy) toy_loaders 1 5 (toy_start 0)
           toy_run_hist toy_run_world).
  vm_compute. reflexivity.
Defined.
